(** * Robotiq C-model gripper action controller

    A shallow embedding of [robotiq_control/scripts/cmodel_action_controller.py]
    and the properties of its unit conversions, its activation handshake and
    its goal-execution loops.

    Modelling choices.
    - Python floats are modelled as exact rationals [Q]: the affine maps, the
      clamps and the truncation [int(...)] are the ones of the source, the
      binary64 rounding of each operation is not modelled.
    - ROS time ([rospy.get_rostime]) is an integer number of nanoseconds;
      [rospy.get_time] is that number over 10^9.
    - Everything the callbacks ask from their surroundings (shutdown flag,
      preemption flag, clock, status messages delivered while the callback
      sleeps) is supplied as an explicit list of ticks, one per loop
      iteration.  A loop that needs one more tick than the list holds yields
      [None].  Status messages are handled while the callback sleeps, never
      between two of its statements.
    - Everything the callbacks do to their surroundings (publishing,
      action-server calls, log warnings) is appended to the trace of events
      carried by the controller state.
    - A division by zero raises in the source; the model is meant for
      calibrations satisfying [calibration_ok], where none occurs. *)

From Stdlib Require Import ZArith QArith Qminmax Qabs Qround Lqa Lia List Bool.
Import ListNotations.

Open Scope Q_scope.

(** ** Numeric helpers *)

(** [np.clip(x, lo, hi)] is [minimum(maximum(x, lo), hi)]. *)
Definition np_clip (x lo hi : Q) : Q := Qmin (Qmax x lo) hi.

(** Python's [int(x)] on a float: truncation toward zero. *)
Definition py_int (x : Q) : Z := Z.quot (Qnum x) (Zpos (Qden x)).

(** Rounding to the nearest integer (half away from zero), as a yardstick
    for the conversions; the source never calls it. *)
Definition round_nearest (x : Q) : Z :=
  if Qle_bool 0 x then py_int (x + (1 # 2)) else py_int (x - (1 # 2)).

(** ** Messages *)

(** [robotiq_msgs/CModelStatus], the fields the controller reads. *)
Record CModelStatus := mkStatus {
  gACT : Z;
  gGTO : Z;
  gSTA : Z;
  gOBJ : Z;
  gPO  : Z
}.

(** [CModelStatus()]: every field zero. *)
Definition CModelStatus_default : CModelStatus := mkStatus 0 0 0 0 0.

(** [robotiq_msgs/CModelCommand], the fields the controller writes. *)
Record CModelCommand := mkCommand {
  rACT : Z;
  rGTO : Z;
  rPR  : Z;
  rSP  : Z;
  rFR  : Z
}.

(** Goal of [CModelCommandAction]. *)
Record CModelGoal := mkGoal {
  goal_position : Q;
  goal_velocity : Q;
  goal_force    : Q
}.

(** Feedback and result of both actions carry the same three fields the
    callbacks fill in (plus [activated] and [velocity] in the status topic). *)
Record Report := mkReport {
  rep_position     : Q;
  rep_stalled      : bool;
  rep_reached_goal : bool
}.

Record StatusFeedback := mkStatusFeedback {
  fb_activated : bool;
  fb_position  : Q;
  fb_velocity  : Q;
  fb_stalled   : bool
}.

(** ** Configuration read in [__init__] *)

Record Config := mkConfig {
  _fb_rate          : Q;
  _min_gap_counts   : Q;
  _counts_to_meters : Q;
  _min_gap          : Q;
  _max_gap          : Q;
  _min_speed        : Q;
  _max_speed        : Q;
  _min_force        : Q;
  _max_force        : Q
}.

(** The defaults passed to [read_parameter]. *)
Definition default_config : Config :=
  mkConfig 60 230 (8 # 10) 0 (85 # 1000) (13 # 1000) (1 # 10) 40 100.

(** No divisor of the source is zero, the gap range is not empty and the
    closed position has a positive register count. *)
Definition calibration_ok (c : Config) : Prop :=
  0 < _min_gap_counts c /\ _min_gap c < _max_gap c /\
  ~ _max_speed c - _min_speed c == 0 /\
  ~ _max_force c - _min_force c == 0 /\
  ~ _counts_to_meters c == 0.

(** ** Controller state *)

Inductive Server := ServerNoDelay | ServerOld | ServerSimple.

(** The two [rospy.logwarn] calls of the controller. *)
Inductive Warning := WarnActivateFailed | WarnGoalNotAccepted.

Inductive Event :=
| CmdPub (c : CModelCommand)
| JointStatePub (position velocity effort : Q)
| StatusPub (f : StatusFeedback)
| Started (s : Server)
| SetPreempted (s : Server)
| SetSucceeded (s : Server) (r : Report)
| PublishFeedback (s : Server) (r : Report)
| LogWarn (w : Warning).

Record Controller := mkController {
  cfg              : Config;
  last_position    : Q;
  last_time        : Q;
  current_time     : Q;
  current_position : Q;
  current_velocity : Q;
  _status          : CModelStatus;
  trace            : list Event
}.

Definition set_status (s : CModelStatus) (st : Controller) : Controller :=
  mkController (cfg st) (last_position st) (last_time st) (current_time st)
    (current_position st) (current_velocity st) s (trace st).

Definition emit (e : Event) (st : Controller) : Controller :=
  mkController (cfg st) (last_position st) (last_time st) (current_time st)
    (current_position st) (current_velocity st) (_status st) (trace st ++ [e]).

(** [self._status.gOBJ = v]: an in-place write to the stored message. *)
Definition set_gOBJ (v : Z) (s : CModelStatus) : CModelStatus :=
  mkStatus (gACT s) (gGTO s) (gSTA s) v (gPO s).

(** ** Status predicates and unit conversions *)

Definition _ready (st : Controller) : bool :=
  (gSTA (_status st) =? 3)%Z && (gACT (_status st) =? 1)%Z.

Definition _stalled (st : Controller) : bool :=
  (gOBJ (_status st) =? 1)%Z || (gOBJ (_status st) =? 2)%Z.

Definition _moving (st : Controller) : bool :=
  (gGTO (_status st) =? 1)%Z && (gOBJ (_status st) =? 0)%Z.

(** The expression of [_get_position], on an arbitrary register value. *)
Definition countsToPosition (c : Config) (count : Q) : Q :=
  np_clip ((_max_gap c - _min_gap c) / (- _min_gap_counts c)
             * (count - _min_gap_counts c))
          (_min_gap c) (_max_gap c).

Definition _get_position (st : Controller) : Q :=
  countsToPosition (cfg st) (inject_Z (gPO (_status st))).

Definition _reached_goal_tol (st : Controller) (goal tol : Q) : bool :=
  negb (Qle_bool tol (Qabs (goal - _get_position st))).

(** [_reached_goal(goal)] with the default [tol=0.003]. *)
Definition _reached_goal (st : Controller) (goal : Q) : bool :=
  _reached_goal_tol st goal (3 # 1000).

(** The three register expressions of [_goto_position]. *)
Definition positionToCounts (c : Config) (pos : Q) : Z :=
  py_int (np_clip ((- _min_gap_counts c) / (_max_gap c - _min_gap c)
                     * (pos - _min_gap c) + _min_gap_counts c)
                  0 (_min_gap_counts c)).

Definition velocityToCounts (c : Config) (vel : Q) : Z :=
  py_int (np_clip (255 / (_max_speed c - _min_speed c) * (vel - _min_speed c))
                  0 255).

Definition forceToCounts (c : Config) (force : Q) : Z :=
  py_int (np_clip (255 / (_max_force c - _min_force c) * (force - _min_force c))
                  0 255).

Definition goto_command (c : Config) (pos vel force : Q) : CModelCommand :=
  mkCommand 1 1 (positionToCounts c pos) (velocityToCounts c vel)
            (forceToCounts c force).

Definition _goto_position (pos vel force : Q) (st : Controller) : Controller :=
  emit (CmdPub (goto_command (cfg st) pos vel force)) st.

(** The command built by [_activate] and [_silent_activate]; [rPR] keeps the
    message default. *)
Definition activation_command : CModelCommand := mkCommand 1 1 0 255 150.

(** [_stop]: defined by the source, called nowhere. *)
Definition _stop (st : Controller) : Controller :=
  emit (CmdPub (mkCommand 1 0 0 0 0)) st.

(** [_preempt] always addresses the no-delay server. *)
Definition _preempt (st : Controller) : Controller :=
  emit (SetPreempted ServerNoDelay) st.

(** ** The surroundings of a callback *)

(** A status message together with the ROS time at which [_status_cb]
    handles it. *)
Definition Arrival : Type := (CModelStatus * Z)%type.

(** [rospy.get_time()] for a ROS time given in nanoseconds. *)
Definition time_sec (t : Z) : Q := inject_Z t / 1000000000.

(** What one iteration of the loop of [_activate] observes, in program
    order: the shutdown flag, the clock, and the status messages handled
    during [rospy.sleep(0.1)]. *)
Record ActTick := mkActTick {
  a_shutdown : bool;
  a_now      : Z;
  a_arrivals : list Arrival
}.

(** What one iteration of a goal loop observes, in program order: the
    shutdown flag and the preemption flag, the status messages handled
    during [rate.sleep()], and the ROS time read after the sleep. *)
Record GoalTick := mkGoalTick {
  g_shutdown : bool;
  g_preempt  : bool;
  g_arrivals : list Arrival;
  g_now      : Z
}.

(** What a call of [_execute_cb] observes: the clock at the start of
    [_activate] and the ticks of its loop, the preemption flag and the ROS
    time read before the goal loop, and the ticks of the goal loop. *)
Record World := mkWorld {
  w_act_start : Z;
  w_act       : list ActTick;
  w_preempt0  : bool;
  w_t0        : Z;
  w_loop      : list GoalTick
}.

(** ** [_status_cb] *)

Definition _status_cb (msg : CModelStatus) (now : Q) (st : Controller)
  : Controller :=
  let dt := now - last_time st in
  let position :=
    _counts_to_meters (cfg st) * inject_Z (gPO (_status st))
      / _min_gap_counts (cfg st) in
  let velocity := (position - last_position st) / (dt + (1 # 100000000)) in
  let st1 :=
    mkController (cfg st) (last_position st) (last_time st) now position
      velocity msg (trace st) in
  let st2 := emit (JointStatePub position velocity 0) st1 in
  let st3 :=
    mkController (cfg st2) position now (current_time st2)
      (current_position st2) (current_velocity st2) (_status st2)
      (trace st2) in
  emit (StatusPub (mkStatusFeedback (_ready st3) (_get_position st3)
                     velocity (_stalled st3))) st3.

(** The status messages handled while the callback sleeps, oldest first. *)
Definition deliver (arrivals : list Arrival) (st : Controller) : Controller :=
  fold_left (fun s a => _status_cb (fst a) (time_sec (snd a)) s) arrivals st.

(** ** Activation *)

(** The values a Python function of the controller returns. *)
Inductive PyVal := PyNone | PyBool (b : bool).

(** Python truth value: [None] and [False] are falsy. *)
Definition truthy (v : PyVal) : bool :=
  match v with PyNone => false | PyBool b => b end.

(** [_silent_activate] has no [return] statement. *)
Definition _silent_activate (st : Controller) : PyVal * Controller :=
  (PyNone, emit (CmdPub activation_command) st).

(** One pass through the body of the loop of [_activate] that reaches the
    sleep. *)
Definition activate_body (tk : ActTick) (st : Controller) : Controller :=
  deliver (a_arrivals tk) (emit (CmdPub activation_command) st).

(** [_activate(timeout)], with [start] the value of [start_time]. *)
Fixpoint _activate (timeout start : Q) (ticks : list ActTick)
  (st : Controller) : option (PyVal * Controller) :=
  if _ready st then Some (PyBool true, st)
  else
    match ticks with
    | [] => None
    | tk :: rest =>
        if a_shutdown tk then Some (PyBool false, _preempt st)
        else if negb (Qle_bool (time_sec (a_now tk) - start) timeout)
        then Some (PyBool false, emit (LogWarn WarnActivateFailed) st)
        else _activate timeout start rest (activate_body tk st)
    end.

(** The default [timeout=5.0]. *)
Definition default_timeout : Q := 5.

(** ** Goal execution *)

(** Why a goal callback returned.  The callbacks of the source return
    nothing; this value only names the [return] or loop exit that was
    taken. *)
Inductive Exit :=
| ExitNotActivated
| ExitPreemptedEarly
| ExitPreempted
| ExitReached
| ExitStall (now : Z)
| ExitNoDelay.

(** How one pass through the body of a goal loop ends: at the [return]
    after [set_preempted], at the [break], or at the end of the body. *)
Inductive Step :=
| StepAbort (st : Controller)
| StepBreak (st : Controller)
| StepContinue (st : Controller).

Definition report (position : Q) (st : Controller) : Report :=
  mkReport (_get_position st) (_stalled st) (_reached_goal st position).

(** The state of an iteration that was not preempted, when [rate.sleep()]
    returns: the command and the feedback were published and the status
    messages of the tick were handled. *)
Definition after_sleep (srv : Server) (position velocity force : Q)
  (tk : GoalTick) (st : Controller) : Controller :=
  let st1 := _goto_position position velocity force st in
  let st2 := emit (PublishFeedback srv (report position st1)) st1 in
  deliver (g_arrivals tk) st2.

(** The body of the [while] loop of [_execute_cb] and of
    [_simple_gripper_action_cb]: the two differ in the server they address
    and in the [rospy.Duration] they compare with, here [grace] in
    nanoseconds. *)
Definition goal_body (srv : Server) (grace t0 : Z) (position velocity force : Q)
  (tk : GoalTick) (st : Controller) : Step :=
  if g_shutdown tk || g_preempt tk
  then StepAbort (emit (SetPreempted srv)
                    (_goto_position position velocity force st))
  else
    let st3 := after_sleep srv position velocity force tk st in
    if (grace <? g_now tk - t0)%Z && _stalled st3 then StepBreak st3
    else StepContinue st3.

(** [while not self._reached_goal(position): ...] *)
Fixpoint goal_loop (srv : Server) (grace t0 : Z) (position velocity force : Q)
  (ticks : list GoalTick) (st : Controller) : option (Exit * Controller) :=
  if _reached_goal st position then Some (ExitReached, st)
  else
    match ticks with
    | [] => None
    | tk :: rest =>
        match goal_body srv grace t0 position velocity force tk st with
        | StepAbort st' => Some (ExitPreempted, st')
        | StepBreak st' => Some (ExitStall (g_now tk), st')
        | StepContinue st' =>
            goal_loop srv grace t0 position velocity force rest st'
        end
    end.

(** The statements after a goal loop: fill in the result, [set_succeeded]. *)
Definition succeed (srv : Server) (position : Q) (st : Controller)
  : Controller :=
  emit (SetSucceeded srv (report position st)) st.

(** A goal loop followed by [set_succeeded], unless the loop returned. *)
Definition run_goal (srv : Server) (grace t0 : Z) (position velocity force : Q)
  (ticks : list GoalTick) (st : Controller) : option (Exit * Controller) :=
  match goal_loop srv grace t0 position velocity force ticks st with
  | None => None
  | Some (ExitPreempted, st') => Some (ExitPreempted, st')
  | Some (ex, st') => Some (ex, succeed srv position st')
  end.

(** [rospy.Duration(0.5)] and [rospy.Duration(1.0)], in nanoseconds. *)
Definition grace_old : Z := 500000000.
Definition grace_simple : Z := 1000000000.

Definition _execute_no_delay_cb (goal : CModelGoal) (preempt : bool)
  (st : Controller) : Exit * Controller :=
  let '(activated, st0) :=
    if _ready st then (true, st)
    else let '(v, s) := _silent_activate st in (truthy v, s) in
  if negb activated then (ExitNotActivated, emit (SetPreempted ServerNoDelay) st0)
  else if preempt then (ExitPreemptedEarly, emit (SetPreempted ServerNoDelay) st0)
  else
    let c := cfg st0 in
    let position := np_clip (goal_position goal) (_min_gap c) (_max_gap c) in
    let velocity := np_clip (goal_velocity goal) (_min_speed c) (_max_speed c) in
    let force := np_clip (goal_force goal) (_min_force c) (_max_force c) in
    let st1 := set_status (set_gOBJ 0 (_status st0)) st0 in
    let st2 := _goto_position position velocity force st1 in
    (ExitNoDelay, succeed ServerNoDelay position st2).

Definition _execute_cb (goal : CModelGoal) (w : World) (st : Controller)
  : option (Exit * Controller) :=
  match
    (if _ready st then Some (PyBool true, st)
     else _activate default_timeout (time_sec (w_act_start w)) (w_act w) st)
  with
  | None => None
  | Some (v, st0) =>
      if negb (truthy v)
      then Some (ExitNotActivated, emit (LogWarn WarnGoalNotAccepted) st0)
      else if w_preempt0 w
      then Some (ExitPreemptedEarly, emit (SetPreempted ServerOld) st0)
      else
        let c := cfg st0 in
        let position := np_clip (goal_position goal) (_min_gap c) (_max_gap c) in
        let velocity :=
          np_clip (goal_velocity goal) (_min_speed c) (_max_speed c) in
        let force := np_clip (goal_force goal) (_min_force c) (_max_force c) in
        let st1 := set_status (set_gOBJ 0 (_status st0)) st0 in
        run_goal ServerOld grace_old (w_t0 w) position velocity force
          (w_loop w) st1
  end.

(** [goal] is [goal.command.position] of the [GripperCommandGoal]. *)
Definition _simple_gripper_action_cb (goal : Q) (w : World) (st : Controller)
  : option (Exit * Controller) :=
  let '(activated, st0) :=
    if _ready st then (true, st)
    else let '(v, s) := _silent_activate st in (truthy v, s) in
  if negb activated
  then Some (ExitNotActivated, emit (SetPreempted ServerSimple) st0)
  else if w_preempt0 w
  then Some (ExitPreemptedEarly, emit (SetPreempted ServerSimple) st0)
  else
    let c := cfg st0 in
    let target_gPO := goal * _min_gap_counts c / _counts_to_meters c in
    let pos := countsToPosition c target_gPO in
    let position := np_clip pos (_min_gap c) (_max_gap c) in
    let velocity := _min_speed c in
    let force := _max_force c in
    let st1 := set_status (set_gOBJ 0 (_status st0)) st0 in
    run_goal ServerSimple grace_simple (w_t0 w) position velocity force
      (w_loop w) st1.

(** ** Start-up *)

(** What [__init__] observes: the clock when [last_time] is set, the status
    messages handled during [rospy.sleep(1.0)] and during [rospy.sleep(2.0)],
    the clock at the start of [_activate] and the ticks of its loop. *)
Record InitWorld := mkInitWorld {
  i_time0  : Z;
  i_sleep1 : list Arrival;
  i_sleep2 : list Arrival;
  i_start  : Z;
  i_act    : list ActTick
}.

Definition start_servers (st : Controller) : Controller :=
  emit (Started ServerSimple)
    (emit (Started ServerOld) (emit (Started ServerNoDelay) st)).

(** The attributes set at the top of [__init__]; the estimates that
    [_status_cb] sets first are put at zero. *)
Definition initial_state (c : Config) (w : InitWorld) : Controller :=
  mkController c 0 (time_sec (i_time0 w)) 0 0 0 CModelStatus_default [].

(** [CModelActionController.__init__(activate)] for the configuration [c]. *)
Definition init (c : Config) (activate : bool) (w : InitWorld)
  : option Controller :=
  let st1 := deliver (i_sleep1 w) (initial_state c w) in
  match
    (if activate && negb (_ready st1)
     then _activate default_timeout (time_sec (i_start w)) (i_act w)
            (deliver (i_sleep2 w) st1)
     else Some (PyBool true, st1))
  with
  | None => None
  | Some (working, st2) =>
      if negb (truthy working) then Some st2 else Some (start_servers st2)
  end.

(** An action server accepts goals only once it was started. *)
Definition serving (srv : Server) (st : Controller) : Prop :=
  In (Started srv) (trace st).

(** ** Yardsticks and sample inputs *)

(** The value [_goto_position] clamps and truncates into [rPR]. *)
Definition raw_count (c : Config) (pos : Q) : Q :=
  (- _min_gap_counts c) / (_max_gap c - _min_gap c) * (pos - _min_gap c)
  + _min_gap_counts c.

(** The register count with the clamped value rounded to the nearest
    integer instead of truncated. *)
Definition positionToCounts_rounded (c : Config) (pos : Q) : Z :=
  round_nearest (np_clip (raw_count c pos) 0 (_min_gap_counts c)).

(** One register count, in meters. *)
Definition count_width (c : Config) : Q :=
  (_max_gap c - _min_gap c) / _min_gap_counts c.

(** The round-trip error of a position through the command register. *)
Definition roundtrip_error (c : Config) (p : Q) : Q :=
  Qabs (countsToPosition c (inject_Z (positionToCounts c p)) - p).

(** The default calibration with the closed gap at 10 mm instead of 0. *)
Definition offset_config : Config :=
  mkConfig 60 230 (8 # 10) (1 # 100) (85 # 1000) (13 # 1000) (1 # 10) 40 100.

(** A controller with the default configuration, nothing published yet,
    memory at zero, holding the status [s]. *)
Definition controller_with (s : CModelStatus) : Controller :=
  mkController default_config 0 0 0 0 0 s [].

(** Status samples: ready and half open; ready with an object detected
    while closing, fully open; not activated. *)
Definition status_half_open : CModelStatus := mkStatus 1 1 3 0 115.
Definition status_stalled : CModelStatus := mkStatus 1 1 3 2 0.
Definition status_inactive : CModelStatus := mkStatus 0 0 0 0 0.

(** The events a callback added to the trace of [st], read off the trace
    of the state [st'] it returned. *)
Definition new_events (st st' : Controller) : list Event :=
  skipn (length (trace st)) (trace st').

(** The commands among a list of events, in publication order. *)
Fixpoint commands (evs : list Event) : list CModelCommand :=
  match evs with
  | [] => []
  | CmdPub c :: r => c :: commands r
  | _ :: r => commands r
  end.

(** Whether an event sets a succeeded outcome. *)
Definition is_succeeded (e : Event) : bool :=
  match e with SetSucceeded _ _ => true | _ => false end.

(** Whether an event sets a terminal outcome on an action server. *)
Definition is_terminal (e : Event) : bool :=
  match e with SetSucceeded _ _ | SetPreempted _ => true | _ => false end.

(** The kinds of events, to say what a piece of code may add to the trace. *)
Inductive EventKind :=
| KCommand | KTelemetry | KStarted | KPreempted | KSucceeded | KFeedback
| KWarning.

Definition kind (e : Event) : EventKind :=
  match e with
  | CmdPub _ => KCommand
  | JointStatePub _ _ _ | StatusPub _ => KTelemetry
  | Started _ => KStarted
  | SetPreempted _ => KPreempted
  | SetSucceeded _ _ => KSucceeded
  | PublishFeedback _ _ => KFeedback
  | LogWarn _ => KWarning
  end.

(** [st'] has the configuration of [st] and its trace is the trace of [st]
    followed by events of the kinds [ok] only. *)
Definition adds (ok : EventKind -> bool) (st st' : Controller) : Prop :=
  cfg st' = cfg st /\
  exists evs, trace st' = trace st ++ evs /\
              forallb (fun e => ok (kind e)) evs = true.

(** The kinds of events [_status_cb] publishes. *)
Definition only_telemetry (k : EventKind) : bool :=
  match k with KTelemetry => true | _ => false end.

(** The state after the loop of [_activate] went through the ticks [pre]
    without leaving. *)
Fixpoint act_run (pre : list ActTick) (st : Controller) : Controller :=
  match pre with
  | [] => st
  | tk :: rest => act_run rest (activate_body tk st)
  end.

(** The loop of [_activate] goes through the ticks [pre] without leaving:
    at each of them the device is not ready, the node is not shut down and
    the clock is within the timeout. *)
Fixpoint waits (timeout start : Q) (pre : list ActTick) (st : Controller)
  : Prop :=
  match pre with
  | [] => True
  | tk :: rest =>
      _ready st = false /\ a_shutdown tk = false /\
      time_sec (a_now tk) - start <= timeout /\
      waits timeout start rest (activate_body tk st)
  end.

(** The status messages a call of [_execute_cb] handles while it waits for
    the activation, and those handled in the goal loop. *)
Definition act_samples (ticks : list ActTick) : list CModelStatus :=
  flat_map (fun tk => map fst (a_arrivals tk)) ticks.

Definition loop_samples (ticks : list GoalTick) : list CModelStatus :=
  flat_map (fun tk => map fst (g_arrivals tk)) ticks.

(** The clipped target of [_execute_cb] and [_execute_no_delay_cb], and the
    target of [_simple_gripper_action_cb]. *)
Definition target (c : Config) (goal : CModelGoal) : Q :=
  np_clip (goal_position goal) (_min_gap c) (_max_gap c).

Definition simple_target (c : Config) (goal : Q) : Q :=
  np_clip (countsToPosition c (goal * _min_gap_counts c / _counts_to_meters c))
          (_min_gap c) (_max_gap c).

(** Every kind of event but a succeeded outcome; every kind but the start
    of a server. *)
Definition not_succeeded (k : EventKind) : bool :=
  match k with KSucceeded => false | _ => true end.

Definition not_started (k : EventKind) : bool :=
  match k with KStarted => false | _ => true end.

(** Whether a callback set a succeeded outcome. *)
Definition succeeded_in (st st' : Controller) : bool :=
  existsb is_succeeded (new_events st st').

(** Sample ticks of the activation loop: 0.1 s after the start with a ready
    status arriving during the sleep, 0.1 s after the start with no
    message, and 6 s after the start. *)
Definition tick_ready_arrives : ActTick :=
  mkActTick false 100000000 [(status_half_open, 150000000%Z)].
Definition tick_quiet : ActTick := mkActTick false 100000000 [].
Definition tick_late : ActTick := mkActTick false 6000000000 [].

(** Sample goals and ticks of a goal loop: a request to close; a tick
    during which a stalled status arrives, read 0.7 s after the first
    command; a quiet tick read 1.2 s after the first command; a tick at
    which the client asked for preemption. *)
Definition goal_close : CModelGoal := mkGoal 0 (5 # 100) 50.
Definition tick_stall : GoalTick :=
  mkGoalTick false false [(status_stalled, 600000000%Z)] 700000000.
Definition tick_stall_later : GoalTick :=
  mkGoalTick false false [] 1200000000.
Definition tick_cancel : GoalTick := mkGoalTick false true [] 100000000.
Definition world_stall : World :=
  mkWorld 0 [] false 0 [tick_stall; tick_stall_later].
Definition world_cancel : World := mkWorld 0 [] false 0 [tick_cancel].
Definition world_late : World := mkWorld 0 [tick_late] false 0 [].

(** The state a callback returned, [d] if the ticks ran out. *)
Definition final_state (r : option (Exit * Controller)) (d : Controller)
  : Controller :=
  match r with Some (_, s) => s | None => d end.

(** The callback ended by setting the goal preempted on [srv], and set no
    succeeded outcome before. *)
Definition preempted_at (srv : Server) (st st' : Controller) : Prop :=
  exists st1, st' = emit (SetPreempted srv) st1 /\ adds not_succeeded st st1.

(** A start-up during which no status arrives and the clock is past the
    timeout at the first tick of [_activate]. *)
Definition init_world_late : InitWorld :=
  mkInitWorld 0 [] [] 3000000000 [mkActTick false 9000000000 []].

(** The value [_goto_position] clamps and truncates into [rSP] and [rFR],
    for a range from [lo] to [hi]. *)
Definition scale255 (lo hi x : Q) : Q := 255 / (hi - lo) * (x - lo).

(** The expression [_get_position] clamps. *)
Definition raw_position (c : Config) (count : Q) : Q :=
  (_max_gap c - _min_gap c) / (- _min_gap_counts c)
  * (count - _min_gap_counts c).

(** The joint position [_status_cb] computes for a register value. *)
Definition joint_position (c : Config) (g : Z) : Q :=
  _counts_to_meters c * inject_Z g / _min_gap_counts c.

(** The positions and efforts of the joint states among a list of events,
    and the positions of the status feedbacks, in publication order. *)
Fixpoint joint_positions (evs : list Event) : list Q :=
  match evs with
  | [] => []
  | JointStatePub p _ _ :: r => p :: joint_positions r
  | _ :: r => joint_positions r
  end.

Fixpoint joint_efforts (evs : list Event) : list Q :=
  match evs with
  | [] => []
  | JointStatePub _ _ e :: r => e :: joint_efforts r
  | _ :: r => joint_efforts r
  end.

Fixpoint feedback_positions (evs : list Event) : list Q :=
  match evs with
  | [] => []
  | StatusPub f :: r => fb_position f :: feedback_positions r
  | _ :: r => feedback_positions r
  end.

(** The position registers of the messages of a sleep. *)
Definition registers (arrivals : list Arrival) : list Z :=
  map (fun a => gPO (fst a)) arrivals.

(** * Properties *)

(** ** Clamping and truncation *)

Lemma py_int_floor (x : Q) : 0 <= x -> py_int x = Qfloor x.
Proof.
  destruct x as [n d]; unfold py_int, Qfloor, Qle; simpl; intros H.
  apply Z.quot_div_nonneg; lia.
Qed.

Lemma np_clip_lower (x lo hi : Q) : lo <= hi -> lo <= np_clip x lo hi.
Proof.
  intros H; unfold np_clip.
  apply Q.min_glb; [apply Q.le_max_r | exact H].
Qed.

Lemma np_clip_upper (x lo hi : Q) : np_clip x lo hi <= hi.
Proof. unfold np_clip; apply Q.le_min_r. Qed.

Lemma np_clip_id (x lo hi : Q) : lo <= x -> x <= hi -> np_clip x lo hi == x.
Proof.
  intros H1 H2; unfold np_clip.
  rewrite (Q.max_l x lo H1). apply Q.min_l; exact H2.
Qed.

Lemma np_clip_mono (x y lo hi : Q) :
  x <= y -> np_clip x lo hi <= np_clip y lo hi.
Proof.
  intros H; unfold np_clip.
  apply Q.min_le_compat_r, Q.max_le_compat_r, H.
Qed.

Lemma calibration_ok_default : calibration_ok default_config.
Proof. unfold calibration_ok; simpl; repeat split; lra. Qed.

(** ** Position to register count *)

Section PositionToCounts.

Variable c : Config.
Hypothesis counts_pos : 0 < _min_gap_counts c.
Hypothesis gap_range : _min_gap c < _max_gap c.

Lemma raw_count_anti (p1 p2 : Q) : p1 <= p2 -> raw_count c p2 <= raw_count c p1.
Proof using counts_pos gap_range.
  intros Hp; unfold raw_count, Qdiv.
  assert (Hi : 0 < / (_max_gap c - _min_gap c))
    by (apply Qinv_lt_0_compat; lra).
  set (i := / (_max_gap c - _min_gap c)) in *.
  assert (Hk : 0 <= _min_gap_counts c * i)
    by (apply Qmult_le_0_compat; lra).
  assert (0 <= (_min_gap_counts c * i) * (p2 - p1))
    by (apply Qmult_le_0_compat; lra).
  lra.
Qed.

Lemma positionToCounts_floor (pos : Q) :
  positionToCounts c pos
  = Qfloor (np_clip (raw_count c pos) 0 (_min_gap_counts c)).
Proof using counts_pos.
  unfold positionToCounts; fold (raw_count c pos).
  apply py_int_floor, np_clip_lower; lra.
Qed.

Lemma positionToCounts_anti (p1 p2 : Q) :
  p1 <= p2 -> (positionToCounts c p2 <= positionToCounts c p1)%Z.
Proof using counts_pos gap_range.
  intros Hp; rewrite !positionToCounts_floor.
  apply Qfloor_resp_le, np_clip_mono, raw_count_anti, Hp.
Qed.

Lemma raw_count_in_range (p : Q) :
  _min_gap c <= p <= _max_gap c -> 0 <= raw_count c p <= _min_gap_counts c.
Proof using counts_pos gap_range.
  intros [Hlo Hhi].
  assert (Hmin : raw_count c (_min_gap c) == _min_gap_counts c)
    by (unfold raw_count; field; lra).
  assert (Hmax : raw_count c (_max_gap c) == 0)
    by (unfold raw_count; field; lra).
  split.
  - rewrite <- Hmax; apply raw_count_anti, Hhi.
  - rewrite <- Hmin; apply raw_count_anti, Hlo.
Qed.

(** With the closed gap at zero, a position in range comes back from the
    command register less than one register count away. *)
Lemma roundtrip_zero_min_gap (p : Q) :
  _min_gap c == 0 -> _min_gap c <= p <= _max_gap c ->
  roundtrip_error c p <= count_width c.
Proof using counts_pos gap_range.
  intros Hz Hp; unfold roundtrip_error, count_width.
  pose proof (raw_count_in_range p Hp) as [Hr0 Hr1].
  set (n := positionToCounts c p).
  assert (Hn : n = Qfloor (raw_count c p)).
  { unfold n; rewrite positionToCounts_floor.
    apply Qfloor_comp, np_clip_id; assumption. }
  pose proof (Qfloor_le (raw_count c p)) as Hlo.
  pose proof (Qlt_floor (raw_count c p)) as Hhi.
  rewrite <- Hn in Hlo, Hhi; rewrite inject_Z_plus in Hhi.
  assert (Hn0 : 0 <= inject_Z n).
  { rewrite Hn; change 0 with (inject_Z 0); rewrite <- Zle_Qle.
    rewrite <- (Qfloor_Z 0); apply Qfloor_resp_le; exact Hr0. }
  change (inject_Z 1) with 1 in Hhi.
  assert (Hi : 0 < / _min_gap_counts c) by (apply Qinv_lt_0_compat; lra).
  set (k := (_max_gap c - _min_gap c) * / _min_gap_counts c).
  assert (Hk : 0 <= k) by (apply Qmult_le_0_compat; lra).
  set (q := (_max_gap c - _min_gap c) / (- _min_gap_counts c)
            * (inject_Z n - _min_gap_counts c)).
  assert (Eq1 : q == k * (_min_gap_counts c - inject_Z n))
    by (unfold q, k; field; lra).
  assert (Ek : k * _min_gap_counts c == _max_gap c - _min_gap c)
    by (unfold k; field; lra).
  assert (Eq2 : q - p == k * (raw_count c p - inject_Z n) - _min_gap c)
    by (unfold q, k, raw_count; field; split; lra).
  assert (H1 : 0 <= k * inject_Z n) by (apply Qmult_le_0_compat; lra).
  assert (H2 : 0 <= k * (_min_gap_counts c - inject_Z n))
    by (apply Qmult_le_0_compat; lra).
  assert (H3 : 0 <= k * (raw_count c p - inject_Z n))
    by (apply Qmult_le_0_compat; lra).
  assert (H4 : 0 <= k * (1 - (raw_count c p - inject_Z n)))
    by (apply Qmult_le_0_compat; lra).
  assert (Ec : countsToPosition c (inject_Z n) == q).
  { unfold countsToPosition; fold q; apply np_clip_id; lra. }
  unfold Qdiv; fold k.
  apply Qabs_Qle_condition; split; lra.
Qed.

End PositionToCounts.

(** C3.  As the specification words it, the count is the clamped value rounded to
    the nearest integer; at 0.1 mm with the default calibration the clamped
    value is about 229.73, the source publishes 229 and the nearest integer
    is 230. *)
Lemma positionToCounts_not_rounded :
  positionToCounts default_config (1 # 10000) = 229%Z /\
  positionToCounts_rounded default_config (1 # 10000) = 230%Z /\
  positionToCounts default_config (1 # 10000)
  <> positionToCounts_rounded default_config (1 # 10000).
Proof. repeat split; vm_compute; discriminate. Qed.

(** C3 (amended).  [positionToCounts] is the clamped affine value truncated
    to its integer part: the count is the largest integer not above
    [clamp((-minGapCounts/(maxGap-minGap)) * (pos-minGap) + minGapCounts,
    0, minGapCounts)].  With the default calibration the closed position
    0.0 gives 230 and the open position 0.085 gives 0. *)
Theorem positionToCounts_truncates (c : Config) (pos : Q) :
  calibration_ok c ->
  (inject_Z (positionToCounts c pos)
     <= np_clip (raw_count c pos) 0 (_min_gap_counts c)
   /\ np_clip (raw_count c pos) 0 (_min_gap_counts c)
     < inject_Z (positionToCounts c pos) + 1)
  /\ positionToCounts default_config 0 = 230%Z
  /\ positionToCounts default_config (85 # 1000) = 0%Z.
Proof.
  intros (Hc & _); split; [| split; reflexivity].
  rewrite (positionToCounts_floor c Hc); split.
  - apply Qfloor_le.
  - pose proof (Qlt_floor (np_clip (raw_count c pos) 0 (_min_gap_counts c))) as H.
    rewrite inject_Z_plus in H; exact H.
Qed.

Lemma positionToCounts_truncates_witness :
  calibration_ok default_config /\
  ((inject_Z (positionToCounts default_config (1 # 10000))
      <= np_clip (raw_count default_config (1 # 10000)) 0
           (_min_gap_counts default_config)
    /\ np_clip (raw_count default_config (1 # 10000)) 0
         (_min_gap_counts default_config)
      < inject_Z (positionToCounts default_config (1 # 10000)) + 1)
   /\ positionToCounts default_config 0 = 230%Z
   /\ positionToCounts default_config (85 # 1000) = 0%Z).
Proof.
  split; [exact calibration_ok_default |].
  exact (positionToCounts_truncates default_config (1 # 10000)
           calibration_ok_default).
Defined.

(** C4.  With the closed gap at 10 mm (a calibration that satisfies the
    invariant of the data model), the open position 0.085 is sent as count
    0, and count 0 is read back as 0.075: the error is 10 mm, against a
    register count of 0.075/230 m. *)
Theorem roundtrip_loses_min_gap :
  calibration_ok offset_config /\
  _min_gap offset_config <= 85 # 1000 <= _max_gap offset_config /\
  positionToCounts offset_config (85 # 1000) = 0%Z /\
  countsToPosition offset_config 0 == 75 # 1000 /\
  roundtrip_error offset_config (85 # 1000) == 1 # 100 /\
  count_width offset_config < roundtrip_error offset_config (85 # 1000).
Proof.
  unfold calibration_ok; simpl.
  repeat split; try lra; try discriminate; vm_compute; reflexivity.
Qed.




(** ** Traces *)

Lemma new_events_app (st st' : Controller) (evs : list Event) :
  trace st' = trace st ++ evs -> new_events st st' = evs.
Proof.
  intros H; unfold new_events; rewrite H.
  rewrite skipn_app, skipn_all, Nat.sub_diag; reflexivity.
Qed.

Lemma adds_refl ok st : adds ok st st.
Proof.
  split; [reflexivity |]; exists []; rewrite app_nil_r; split; reflexivity.
Qed.

Lemma adds_trans ok st1 st2 st3 :
  adds ok st1 st2 -> adds ok st2 st3 -> adds ok st1 st3.
Proof.
  intros (C1 & e1 & T1 & F1) (C2 & e2 & T2 & F2); split; [congruence |].
  exists (e1 ++ e2); split.
  - rewrite T2, T1, app_assoc; reflexivity.
  - rewrite forallb_app, F1, F2; reflexivity.
Qed.

Lemma adds_emit ok e st : ok (kind e) = true -> adds ok st (emit e st).
Proof.
  intros H; split; [reflexivity |]; exists [e]; split; [reflexivity |].
  simpl; rewrite H; reflexivity.
Qed.

Lemma adds_set_status ok s st : adds ok st (set_status s st).
Proof.
  split; [reflexivity |]; exists []; simpl; rewrite app_nil_r; split; reflexivity.
Qed.

Lemma adds_new_events ok st st' :
  adds ok st st' ->
  trace st' = trace st ++ new_events st st' /\
  forallb (fun e => ok (kind e)) (new_events st st') = true.
Proof.
  intros (_ & evs & T & F); rewrite (new_events_app _ _ _ T); split; assumption.
Qed.

Create HintDb trace.

#[local] Hint Resolve adds_refl adds_emit adds_set_status : trace.

(** ** The status callback *)

Lemma status_cb_status msg now st : _status (_status_cb msg now st) = msg.
Proof. reflexivity. Qed.

Lemma status_cb_adds ok msg now st :
  ok KTelemetry = true -> adds ok st (_status_cb msg now st).
Proof.
  intros H; split; [reflexivity |].
  eexists; split; [unfold _status_cb, emit; simpl; rewrite <- app_assoc; reflexivity |].
  simpl; rewrite H; reflexivity.
Qed.

Lemma deliver_adds ok arrivals st :
  ok KTelemetry = true -> adds ok st (deliver arrivals st).
Proof.
  intros H; unfold deliver; revert st.
  induction arrivals as [| a l IH]; intros st; simpl; [apply adds_refl |].
  eapply adds_trans; [apply status_cb_adds, H | apply IH].
Qed.

Lemma last_nonempty {A} (x : A) (l : list A) (d d' : A) :
  last (x :: l) d = last (x :: l) d'.
Proof.
  revert x; induction l as [| y l IH]; intros x; [reflexivity |].
  change (last (y :: l) d = last (y :: l) d'); apply IH.
Qed.

(** After the messages of a sleep were handled, the stored status is the
    last of them, or the one stored before if there was none. *)
Lemma deliver_status arrivals st :
  _status (deliver arrivals st) = last (map fst arrivals) (_status st).
Proof.
  unfold deliver; revert st.
  induction arrivals as [| a l IH]; intros st; [reflexivity |].
  simpl fold_left; rewrite IH, status_cb_status.
  destruct l as [| b l']; [reflexivity |].
  change (last (fst b :: map fst l') (fst a)
          = last (fst b :: map fst l') (_status st)).
  apply last_nonempty.
Qed.

Lemma deliver_status_in arrivals st :
  _status (deliver arrivals st) = _status st \/
  In (_status (deliver arrivals st)) (map fst arrivals).
Proof.
  rewrite deliver_status.
  destruct arrivals as [| a l]; [left; reflexivity | right].
  generalize (_status st); intros d.
  remember (map fst (a :: l)) as m eqn:E.
  assert (Hm : m <> []) by (subst m; discriminate).
  clear E; induction m as [| x [| y m'] IH]; [congruence | left; reflexivity |].
  right; apply IH; discriminate.
Qed.

(** C1.  As the specification words it, the position estimate is
    [countsToPosition] of the sample's register and the velocity divides by
    [max(now - lastTime, eps)].  With the register at 115 the source stores
    0.8 * 115 / 230 = 0.4 where [countsToPosition] gives 0.0425, and no
    [eps] makes the two velocity formulas agree at every time. *)
Lemma status_cb_not_countsToPosition :
  ~ current_position
      (_status_cb status_half_open 1 (controller_with status_half_open))
    == countsToPosition default_config (inject_Z (gPO status_half_open))
  /\ ~ (exists eps : Q, forall now : Q,
         let st := controller_with status_half_open in
         let st' := _status_cb status_half_open now st in
         current_velocity st'
         == (current_position st' - last_position st)
            / Qmax (now - last_time st) eps).
Proof.
  split.
  - intro E; vm_compute in E; discriminate.
  - intros [eps H].
    pose proof (H 1) as H1; pose proof (H (1 # 2)) as H2.
    cbv zeta in H1, H2; unfold _status_cb in H1, H2; simpl in H1, H2.
    destruct (Q.max_spec (1 - 0) eps) as [[L1 E1] | [L1 E1]].
    + destruct (Q.max_spec ((1 # 2) - 0) eps) as [[L2 E2] | [L2 E2]];
        [| lra].
      rewrite E1 in H1; rewrite E2 in H2; rewrite <- H2 in H1.
      vm_compute in H1; discriminate.
    + rewrite E1 in H1; vm_compute in H1; discriminate.
Qed.

(** C1 (amended).  For every incoming status sample the status callback
    computes the joint position by the linear map
    [counts_to_meters * gPO / min_gap_counts] (not by [countsToPosition]),
    the velocity as [(position - last_position) / ((now - last_time) + 1e-8)],
    stores that position and [now] in the single-slot memory, replaces the
    stored status by the sample, and publishes the joint state and a status
    feedback whose position is [countsToPosition] of the sample's register. *)
Theorem status_cb_estimate (msg : CModelStatus) (now : Q) (st : Controller) :
  calibration_ok (cfg st) -> last_time st <= now ->
  let st' := _status_cb msg now st in
  let position :=
    _counts_to_meters (cfg st) * inject_Z (gPO (_status st))
      / _min_gap_counts (cfg st) in
  let velocity :=
    (position - last_position st)
      / ((now - last_time st) + (1 # 100000000)) in
  0 < (now - last_time st) + (1 # 100000000) /\
  current_position st' = position /\
  current_velocity st' = velocity /\
  last_position st' = position /\
  last_time st' = now /\
  _status st' = msg /\
  _get_position st' = countsToPosition (cfg st) (inject_Z (gPO msg)) /\
  new_events st st'
  = [JointStatePub position velocity 0;
     StatusPub (mkStatusFeedback (_ready st') (_get_position st') velocity
                  (_stalled st'))].
Proof.
  intros _ Ht; cbv zeta.
  split; [lra |].
  repeat (split; [reflexivity |]).
  apply new_events_app.
  unfold _status_cb, emit; simpl; rewrite <- app_assoc; reflexivity.
Qed.

Lemma status_cb_estimate_witness :
  calibration_ok (cfg (controller_with status_half_open)) /\
  last_time (controller_with status_half_open) <= 1 /\
  current_position
    (_status_cb status_stalled 1 (controller_with status_half_open))
  = (8 # 10) * inject_Z 115 / 230.
Proof.
  split; [exact calibration_ok_default |].
  split; [discriminate |].
  apply (status_cb_estimate status_stalled 1 (controller_with status_half_open));
    [exact calibration_ok_default | discriminate].
Defined.

(** ** Activation *)

Lemma activate_ready timeout start ticks st :
  _ready st = true -> _activate timeout start ticks st = Some (PyBool true, st).
Proof. intros H; destruct ticks; simpl; rewrite H; reflexivity. Qed.

Lemma activate_body_adds ok tk st :
  ok KCommand = true -> ok KTelemetry = true -> adds ok st (activate_body tk st).
Proof.
  intros Hc Ht; unfold activate_body.
  eapply adds_trans; [| apply deliver_adds, Ht].
  apply adds_emit; exact Hc.
Qed.

Lemma commands_none ok evs :
  ok KCommand = false -> forallb (fun e => ok (kind e)) evs = true ->
  commands evs = [].
Proof.
  intros Hc; induction evs as [| e r IH]; [reflexivity |].
  simpl; intros F; apply andb_prop in F; destruct F as [Fe Fr].
  destruct e; simpl in Fe; try (apply IH; exact Fr); congruence.
Qed.

Lemma activate_body_commands tk st :
  commands (new_events st (activate_body tk st)) = [activation_command].
Proof.
  unfold activate_body.
  destruct (deliver_adds only_telemetry (a_arrivals tk) (emit (CmdPub activation_command) st) eq_refl)
    as (_ & evs & T & F).
  rewrite (new_events_app st _ ([CmdPub activation_command] ++ evs)).
  - simpl; f_equal; exact (commands_none only_telemetry evs eq_refl F).
  - rewrite T; simpl; rewrite <- app_assoc; reflexivity.
Qed.

Lemma act_run_adds ok pre st :
  ok KCommand = true -> ok KTelemetry = true -> adds ok st (act_run pre st).
Proof.
  intros Hc Ht; revert st; induction pre as [| tk r IH]; intros st; simpl.
  - apply adds_refl.
  - eapply adds_trans; [apply activate_body_adds; assumption | apply IH].
Qed.

Lemma new_events_trans st1 st2 st3 :
  (exists e, trace st2 = trace st1 ++ e) ->
  (exists e, trace st3 = trace st2 ++ e) ->
  new_events st1 st3 = new_events st1 st2 ++ new_events st2 st3.
Proof.
  intros [e1 T1] [e2 T2].
  rewrite (new_events_app _ _ _ T1), (new_events_app _ _ _ T2).
  apply new_events_app; rewrite T2, T1, app_assoc; reflexivity.
Qed.

Lemma commands_app l1 l2 : commands (l1 ++ l2) = commands l1 ++ commands l2.
Proof.
  induction l1 as [| e r IH]; [reflexivity |].
  destruct e; simpl; rewrite IH; reflexivity.
Qed.

Lemma adds_extends ok st st' :
  adds ok st st' -> exists e, trace st' = trace st ++ e.
Proof. intros (_ & e & T & _); exists e; exact T. Qed.

Lemma act_run_commands pre st :
  commands (new_events st (act_run pre st))
  = repeat activation_command (length pre).
Proof.
  revert st; induction pre as [| tk r IH]; intros st; simpl.
  - unfold new_events; rewrite skipn_all; reflexivity.
  - rewrite (new_events_trans st (activate_body tk st)).
    + rewrite commands_app, activate_body_commands, IH; reflexivity.
    + apply (adds_extends (fun _ => true)), activate_body_adds; reflexivity.
    + apply (adds_extends (fun _ => true)), act_run_adds; reflexivity.
Qed.

Lemma activate_waits timeout start pre rest st :
  waits timeout start pre st ->
  _activate timeout start (pre ++ rest) st
  = _activate timeout start rest (act_run pre st).
Proof.
  revert st; induction pre as [| tk r IH]; intros st; [reflexivity |].
  simpl; intros (Hr & Hs & Ht & Hw).
  rewrite Hr, Hs.
  apply Qle_bool_iff in Ht; rewrite Ht; simpl.
  apply IH, Hw.
Qed.

(** C6.  [_activate] returns [True] at once, publishing nothing, when the
    device is already ready; when the status stream makes the device ready
    after the loop went through the ticks [pre] within the timeout, it
    returns [True] having published the activation command (rACT=1, rGTO=1,
    rSP=255, rFR=150) once per tick; when the device is still not ready at
    the first tick whose clock is past the timeout, it returns [False]
    there. *)
Theorem activate_outcomes (timeout start : Q) (pre post : list ActTick)
  (tk : ActTick) (st : Controller) :
  calibration_ok (cfg st) ->
  (_ready st = true ->
   _activate timeout start post st = Some (PyBool true, st)) /\
  (waits timeout start pre st -> _ready (act_run pre st) = true ->
   _activate timeout start (pre ++ post) st
   = Some (PyBool true, act_run pre st) /\
   commands (new_events st (act_run pre st))
   = repeat (mkCommand 1 1 0 255 150) (length pre)) /\
  (waits timeout start pre st -> _ready (act_run pre st) = false ->
   a_shutdown tk = false -> timeout < time_sec (a_now tk) - start ->
   _activate timeout start (pre ++ tk :: post) st
   = Some (PyBool false, emit (LogWarn WarnActivateFailed) (act_run pre st)) /\
   commands (new_events st (emit (LogWarn WarnActivateFailed) (act_run pre st)))
   = repeat (mkCommand 1 1 0 255 150) (length pre)).
Proof.
  intros _; split; [apply activate_ready |]; split.
  - intros Hw Hr; split; [| apply act_run_commands].
    rewrite (activate_waits _ _ _ _ _ Hw); apply activate_ready, Hr.
  - intros Hw Hr Hs Ht; split.
    + rewrite (activate_waits _ _ _ _ _ Hw); simpl; rewrite Hr, Hs.
      destruct (Qle_bool (time_sec (a_now tk) - start) timeout) eqn:E;
        [| reflexivity].
      apply Qle_bool_iff in E; lra.
    + rewrite (new_events_trans st (act_run pre st)).
      * rewrite commands_app, act_run_commands.
        rewrite (new_events_app (act_run pre st)
                   (emit (LogWarn WarnActivateFailed) (act_run pre st))
                   [LogWarn WarnActivateFailed] eq_refl).
        simpl; apply app_nil_r.
      * apply (adds_extends (fun _ => true)), act_run_adds; reflexivity.
      * eexists; reflexivity.
Qed.

Lemma activate_outcomes_witness :
  calibration_ok default_config /\
  _activate 5 0 [] (controller_with status_half_open)
  = Some (PyBool true, controller_with status_half_open) /\
  _activate 5 0 ([tick_ready_arrives] ++ []) (controller_with status_inactive)
  = Some (PyBool true,
          act_run [tick_ready_arrives] (controller_with status_inactive)) /\
  _activate 5 0 ([tick_quiet] ++ tick_late :: [])
    (controller_with status_inactive)
  = Some (PyBool false,
          emit (LogWarn WarnActivateFailed)
            (act_run [tick_quiet] (controller_with status_inactive))).
Proof.
  split; [exact calibration_ok_default |]; split; [| split].
  - exact (proj1 (activate_outcomes 5 0 [] [] tick_late
                    (controller_with status_half_open) calibration_ok_default)
             eq_refl).
  - refine (proj1 (proj1 (proj2
              (activate_outcomes 5 0 [tick_ready_arrives] [] tick_late
                 (controller_with status_inactive) calibration_ok_default))
              _ eq_refl)).
    simpl; repeat split; discriminate.
  - refine (proj1 (proj2 (proj2
              (activate_outcomes 5 0 [tick_quiet] [] tick_late
                 (controller_with status_inactive) calibration_ok_default))
              _ eq_refl eq_refl eq_refl)).
    simpl; repeat split; discriminate.
Defined.

Lemma activate_adds ok timeout start ticks st v st' :
  ok KCommand = true -> ok KTelemetry = true -> ok KPreempted = true ->
  ok KWarning = true ->
  _activate timeout start ticks st = Some (v, st') -> adds ok st st'.
Proof.
  intros Hc Ht Hp Hw; revert st.
  induction ticks as [| tk r IH]; intros st; simpl.
  - destruct (_ready st); [| discriminate].
    intros E; injection E as _ <-; apply adds_refl.
  - destruct (_ready st).
    { intros E; injection E as _ <-; apply adds_refl. }
    destruct (a_shutdown tk).
    { intros E; injection E as _ <-; apply adds_emit; exact Hp. }
    destruct (negb _).
    { intros E; injection E as _ <-; apply adds_emit; exact Hw. }
    intros E; eapply adds_trans; [| apply (IH _ E)].
    apply activate_body_adds; assumption.
Qed.

Lemma activate_body_status tk st :
  _status (activate_body tk st) = _status st \/
  In (_status (activate_body tk st)) (map fst (a_arrivals tk)).
Proof.
  exact (deliver_status_in (a_arrivals tk) (emit (CmdPub activation_command) st)).
Qed.

Lemma activate_status timeout start ticks st v st' :
  _activate timeout start ticks st = Some (v, st') ->
  _status st' = _status st \/ In (_status st') (act_samples ticks).
Proof.
  revert st; induction ticks as [| tk r IH]; intros st; simpl.
  - destruct (_ready st); [| discriminate].
    intros E; injection E as _ <-; left; reflexivity.
  - destruct (_ready st).
    { intros E; injection E as _ <-; left; reflexivity. }
    destruct (a_shutdown tk).
    { intros E; injection E as _ <-; left; reflexivity. }
    destruct (negb _).
    { intros E; injection E as _ <-; left; reflexivity. }
    intros E; destruct (IH _ E) as [H | H].
    + rewrite H; destruct (activate_body_status tk st) as [H' | H'];
        [left; exact H' | right; apply in_or_app; left; exact H'].
    + right; apply in_or_app; right; exact H.
Qed.

(** A failed activation leaves the device not ready. *)
Lemma activate_false_not_ready timeout start ticks st v st' :
  _activate timeout start ticks st = Some (v, st') ->
  truthy v = false -> _ready st' = false.
Proof.
  revert st; induction ticks as [| tk r IH]; intros st; simpl.
  - destruct (_ready st); [| discriminate].
    intros E; injection E as <- _; discriminate.
  - destruct (_ready st) eqn:R.
    { intros E; injection E as <- _; discriminate. }
    destruct (a_shutdown tk).
    { intros E; injection E as _ <-; intros _; exact R. }
    destruct (negb _).
    { intros E; injection E as _ <-; intros _; exact R. }
    apply IH.
Qed.

(** ** Goal loops *)

Section GoalLoop.

Variable srv : Server.
Variables grace t0 : Z.
Variables position velocity force : Q.

Lemma after_sleep_adds ok tk st :
  ok KCommand = true -> ok KTelemetry = true -> ok KFeedback = true ->
  adds ok st (after_sleep srv position velocity force tk st).
Proof using Type.
  intros Hc Ht Hf; unfold after_sleep, _goto_position.
  eapply adds_trans; [| apply deliver_adds, Ht].
  eapply adds_trans; apply adds_emit; assumption.
Qed.

Lemma after_sleep_status tk st :
  _status (after_sleep srv position velocity force tk st) = _status st \/
  In (_status (after_sleep srv position velocity force tk st))
     (map fst (g_arrivals tk)).
Proof using Type.
  unfold after_sleep.
  exact (deliver_status_in (g_arrivals tk)
           (emit (PublishFeedback srv
                    (report position
                       (_goto_position position velocity force st)))
              (_goto_position position velocity force st))).
Qed.

(** What each way out of the body of the loop tells. *)
Lemma goal_body_cases tk st :
  match goal_body srv grace t0 position velocity force tk st with
  | StepAbort st' =>
      g_shutdown tk || g_preempt tk = true /\
      st' = emit (SetPreempted srv)
              (_goto_position position velocity force st)
  | StepBreak st' =>
      g_shutdown tk || g_preempt tk = false /\
      st' = after_sleep srv position velocity force tk st /\
      (grace < g_now tk - t0)%Z /\ _stalled st' = true
  | StepContinue st' =>
      g_shutdown tk || g_preempt tk = false /\
      st' = after_sleep srv position velocity force tk st /\
      ((g_now tk - t0 <= grace)%Z \/ _stalled st' = false)
  end.
Proof using Type.
  unfold goal_body.
  destruct (g_shutdown tk || g_preempt tk); [split; reflexivity |].
  destruct (grace <? g_now tk - t0)%Z eqn:G; simpl.
  - apply Z.ltb_lt in G.
    destruct (_stalled (after_sleep srv position velocity force tk st)) eqn:S;
      repeat split; auto.
  - apply Z.ltb_ge in G; repeat split; auto.
Qed.

Lemma goal_loop_adds ok ticks st ex st' :
  ok KCommand = true -> ok KTelemetry = true -> ok KFeedback = true ->
  ok KPreempted = true ->
  goal_loop srv grace t0 position velocity force ticks st = Some (ex, st') ->
  adds ok st st'.
Proof using Type.
  intros Hc Ht Hf Hp; revert st.
  induction ticks as [| tk r IH]; intros st; simpl.
  - destruct (_reached_goal st position); [| discriminate].
    intros E; injection E as _ <-; apply adds_refl.
  - destruct (_reached_goal st position).
    { intros E; injection E as _ <-; apply adds_refl. }
    pose proof (goal_body_cases tk st) as B.
    destruct (goal_body srv grace t0 position velocity force tk st)
      as [s | s | s].
    + destruct B as [_ ->]; intros E; injection E as _ <-.
      unfold _goto_position; eapply adds_trans; apply adds_emit; assumption.
    + destruct B as (_ & -> & _); intros E; injection E as _ <-.
      apply after_sleep_adds; assumption.
    + destruct B as (_ & -> & _); intros E.
      eapply adds_trans; [| apply (IH _ E)].
      apply after_sleep_adds; assumption.
Qed.

(** What each exit of the loop tells about the state it leaves. *)
Lemma goal_loop_exit ticks st ex st' :
  goal_loop srv grace t0 position velocity force ticks st = Some (ex, st') ->
  match ex with
  | ExitReached => _reached_goal st' position = true
  | ExitStall now =>
      (grace < now - t0)%Z /\ _stalled st' = true /\
      exists tk, In tk ticks /\ g_now tk = now
  | ExitPreempted =>
      (exists tk, In tk ticks /\ g_shutdown tk || g_preempt tk = true) /\
      exists st1, st' = emit (SetPreempted srv) st1 /\
                  adds not_succeeded st st1
  | _ => False
  end.
Proof using Type.
  revert st; induction ticks as [| tk r IH]; intros st; simpl.
  - destruct (_reached_goal st position) eqn:R; [| discriminate].
    intros E; injection E as <- <-; exact R.
  - destruct (_reached_goal st position) eqn:R.
    { intros E; injection E as <- <-; exact R. }
    pose proof (goal_body_cases tk st) as B.
    destruct (goal_body srv grace t0 position velocity force tk st)
      as [s | s | s].
    + destruct B as [A ->]; intros E; injection E as <- <-; split.
      * exists tk; split; [left; reflexivity | exact A].
      * eexists; split; [reflexivity |].
        apply adds_emit; reflexivity.
    + destruct B as (_ & -> & G & S); intros E; injection E as <- <-.
      repeat split; auto.
      exists tk; split; [left |]; reflexivity.
    + destruct B as (_ & -> & _); intros E.
      specialize (IH _ E); destruct ex; auto.
      * destruct IH as ((tk' & I & A) & s1 & -> & Had); split.
        -- exists tk'; split; [right |]; assumption.
        -- exists s1; split; [reflexivity |].
           eapply adds_trans; [| exact Had].
           apply after_sleep_adds; reflexivity.
      * destruct IH as (G & S & tk' & I & N); repeat split; auto.
        exists tk'; split; [right |]; assumption.
Qed.

Lemma goal_loop_status ticks st ex st' :
  goal_loop srv grace t0 position velocity force ticks st = Some (ex, st') ->
  _status st' = _status st \/ In (_status st') (loop_samples ticks).
Proof using Type.
  revert st; induction ticks as [| tk r IH]; intros st; simpl.
  - destruct (_reached_goal st position); [| discriminate].
    intros E; injection E as _ <-; left; reflexivity.
  - destruct (_reached_goal st position).
    { intros E; injection E as _ <-; left; reflexivity. }
    pose proof (goal_body_cases tk st) as B.
    pose proof (after_sleep_status tk st) as A.
    destruct (goal_body srv grace t0 position velocity force tk st)
      as [s | s | s].
    + destruct B as [_ ->]; intros E; injection E as _ <-.
      left; reflexivity.
    + destruct B as (_ & -> & _); intros E; injection E as _ <-.
      destruct A as [A | A]; [left; exact A |].
      right; apply in_or_app; left; exact A.
    + destruct B as (_ & -> & _); intros E.
      destruct (IH _ E) as [H | H].
      * rewrite H; destruct A as [A | A]; [left; exact A |].
        right; apply in_or_app; left; exact A.
      * right; apply in_or_app; right; exact H.
Qed.

End GoalLoop.

(** ** Goal callbacks *)

Lemma run_goal_cases srv grace t0 position velocity force ticks st ex st' :
  run_goal srv grace t0 position velocity force ticks st = Some (ex, st') ->
  exists sl,
    goal_loop srv grace t0 position velocity force ticks st = Some (ex, sl) /\
    ((ex = ExitPreempted /\ st' = sl) \/
     (ex <> ExitPreempted /\ st' = succeed srv position sl)).
Proof.
  unfold run_goal.
  destruct (goal_loop srv grace t0 position velocity force ticks st)
    as [[e sl] |]; [| discriminate].
  destruct e; intros E; injection E as <- <-; exists sl;
    (split; [reflexivity |]);
    try (right; split; [discriminate | reflexivity]).
  left; split; reflexivity.
Qed.

(** The paths through [_execute_cb]. *)
Lemma execute_cb_cases goal w st ex st' :
  _execute_cb goal w st = Some (ex, st') ->
  exists v st0,
    _activate default_timeout (time_sec (w_act_start w)) (w_act w) st
    = Some (v, st0) /\
    ((truthy v = false /\ ex = ExitNotActivated /\
      st' = emit (LogWarn WarnGoalNotAccepted) st0) \/
     (truthy v = true /\ w_preempt0 w = true /\ ex = ExitPreemptedEarly /\
      st' = emit (SetPreempted ServerOld) st0) \/
     (truthy v = true /\ w_preempt0 w = false /\
      run_goal ServerOld grace_old (w_t0 w) (target (cfg st0) goal)
        (np_clip (goal_velocity goal) (_min_speed (cfg st0))
           (_max_speed (cfg st0)))
        (np_clip (goal_force goal) (_min_force (cfg st0))
           (_max_force (cfg st0)))
        (w_loop w) (set_status (set_gOBJ 0 (_status st0)) st0)
      = Some (ex, st'))).
Proof.
  unfold _execute_cb.
  destruct (_ready st) eqn:R.
  - rewrite (activate_ready _ _ _ _ R).
    intros E; exists (PyBool true), st; split; [reflexivity |].
    simpl in E; destruct (w_preempt0 w).
    + injection E as <- <-; right; left; repeat split.
    + right; right; repeat split; exact E.
  - destruct (_activate default_timeout (time_sec (w_act_start w)) (w_act w) st)
      as [[v st0] |]; [| discriminate].
    intros E; exists v, st0; split; [reflexivity |].
    destruct (truthy v); simpl in E.
    + destruct (w_preempt0 w).
      * injection E as <- <-; right; left; repeat split.
      * right; right; repeat split; exact E.
    + injection E as <- <-; left; repeat split.
Qed.

(** The paths through [_simple_gripper_action_cb]. *)
Lemma simple_cb_cases goal w st ex st' :
  _simple_gripper_action_cb goal w st = Some (ex, st') ->
  (_ready st = false /\ ex = ExitNotActivated /\
   st' = emit (SetPreempted ServerSimple)
           (emit (CmdPub activation_command) st)) \/
  (_ready st = true /\ w_preempt0 w = true /\ ex = ExitPreemptedEarly /\
   st' = emit (SetPreempted ServerSimple) st) \/
  (_ready st = true /\ w_preempt0 w = false /\
   run_goal ServerSimple grace_simple (w_t0 w) (simple_target (cfg st) goal)
     (_min_speed (cfg st)) (_max_force (cfg st)) (w_loop w)
     (set_status (set_gOBJ 0 (_status st)) st)
   = Some (ex, st')).
Proof.
  unfold _simple_gripper_action_cb.
  destruct (_ready st); simpl.
  - destruct (w_preempt0 w); intros E.
    + injection E as <- <-; right; left; repeat split.
    + right; right; repeat split; exact E.
  - intros E; injection E as <- <-; left; repeat split.
Qed.

(** The paths through [_execute_no_delay_cb]. *)
Lemma no_delay_cb_cases goal preempt st ex st' :
  _execute_no_delay_cb goal preempt st = (ex, st') ->
  (_ready st = false /\ ex = ExitNotActivated /\
   st' = emit (SetPreempted ServerNoDelay)
           (emit (CmdPub activation_command) st)) \/
  (_ready st = true /\ preempt = true /\ ex = ExitPreemptedEarly /\
   st' = emit (SetPreempted ServerNoDelay) st) \/
  (_ready st = true /\ preempt = false /\ ex = ExitNoDelay /\
   st' = succeed ServerNoDelay (target (cfg st) goal)
           (_goto_position (target (cfg st) goal)
              (np_clip (goal_velocity goal) (_min_speed (cfg st))
                 (_max_speed (cfg st)))
              (np_clip (goal_force goal) (_min_force (cfg st))
                 (_max_force (cfg st)))
              (set_status (set_gOBJ 0 (_status st)) st))).
Proof.
  unfold _execute_no_delay_cb.
  destruct (_ready st); simpl.
  - destruct preempt; intros E; injection E as <- <-.
    + right; left; repeat split.
    + right; right; repeat split.
  - intros E; injection E as <- <-; left; repeat split.
Qed.

(** C10.  [_silent_activate] publishes the activation command and returns
    [None], which is falsy; so a goal that reaches the no-delay or the
    simple-gripper callback while the device is not ready always takes the
    guard: the callback publishes the activation command, sets the goal
    preempted and returns, and publishes nothing else. *)
Theorem silent_activate_always_preempts (goal : CModelGoal) (gpos : Q)
  (preempt : bool) (w : World) (st : Controller) :
  _ready st = false ->
  _silent_activate st = (PyNone, emit (CmdPub activation_command) st) /\
  truthy (fst (_silent_activate st)) = false /\
  (exists st',
     _execute_no_delay_cb goal preempt st = (ExitNotActivated, st') /\
     new_events st st'
     = [CmdPub activation_command; SetPreempted ServerNoDelay]) /\
  (exists st',
     _simple_gripper_action_cb gpos w st = Some (ExitNotActivated, st') /\
     new_events st st'
     = [CmdPub activation_command; SetPreempted ServerSimple]).
Proof.
  intros R; split; [reflexivity |]; split; [reflexivity |]; split.
  - eexists; split.
    + unfold _execute_no_delay_cb; rewrite R; reflexivity.
    + apply new_events_app; simpl; rewrite <- app_assoc; reflexivity.
  - eexists; split.
    + unfold _simple_gripper_action_cb; rewrite R; reflexivity.
    + apply new_events_app; simpl; rewrite <- app_assoc; reflexivity.
Qed.

Lemma silent_activate_always_preempts_witness :
  _ready (controller_with status_inactive) = false /\
  exists st',
    _execute_no_delay_cb (mkGoal (5 # 100) (5 # 100) 50) false
      (controller_with status_inactive)
    = (ExitNotActivated, st') /\
    new_events (controller_with status_inactive) st'
    = [CmdPub activation_command; SetPreempted ServerNoDelay].
Proof.
  split; [reflexivity |].
  apply (silent_activate_always_preempts (mkGoal (5 # 100) (5 # 100) 50)
           (5 # 100) false (mkWorld 0 [] false 0 [])
           (controller_with status_inactive)).
  reflexivity.
Defined.



(** The same stall 0.7 s after the first command ends the loop of the old
    interface and not that of the simple interface, which goes on to the
    next tick. *)
Lemma grace_periods_differ :
  (exists st',
     _execute_cb goal_close world_stall (controller_with status_half_open)
     = Some (ExitStall 700000000, st')) /\
  (exists st',
     _simple_gripper_action_cb (8 # 10) world_stall
       (controller_with status_half_open)
     = Some (ExitStall 1200000000, st')).
Proof. split; eexists; vm_compute; reflexivity. Qed.

(** ** Outcomes *)

Lemma adds_weaken (ok ok' : EventKind -> bool) st st' :
  (forall k, ok k = true -> ok' k = true) -> adds ok st st' -> adds ok' st st'.
Proof.
  intros W (C & evs & T & F); split; [exact C |].
  exists evs; split; [exact T |].
  rewrite forallb_forall in *; intros e I; apply W, F, I.
Qed.

Lemma not_succeeded_events evs :
  forallb (fun e => not_succeeded (kind e)) evs = true ->
  existsb is_succeeded evs = false.
Proof.
  induction evs as [| e r IH]; [reflexivity |].
  simpl; intros F; apply andb_prop in F; destruct F as [Fe Fr].
  rewrite (IH Fr); destruct e; try reflexivity; discriminate.
Qed.

Lemma adds_not_succeeded st st' :
  adds not_succeeded st st' -> succeeded_in st st' = false.
Proof.
  intros H; destruct (adds_new_events _ _ _ H) as [_ F].
  apply not_succeeded_events, F.
Qed.

Lemma succeeded_in_succeed srv position st sl :
  adds not_succeeded st sl -> succeeded_in st (succeed srv position sl) = true.
Proof.
  intros (_ & evs & T & _); unfold succeeded_in.
  rewrite (new_events_app st _ (evs ++ [SetSucceeded srv (report position sl)])).
  - rewrite existsb_app; simpl; apply orb_true_r.
  - simpl; rewrite T, app_assoc; reflexivity.
Qed.

Lemma preempted_at_events srv st st' :
  preempted_at srv st st' ->
  succeeded_in st st' = false /\
  exists evs, new_events st st' = evs ++ [SetPreempted srv].
Proof.
  intros (s1 & -> & A); split.
  - apply adds_not_succeeded.
    eapply adds_trans; [exact A | apply adds_emit; reflexivity].
  - destruct A as (_ & evs & T & _); exists evs.
    apply new_events_app; simpl; rewrite T, app_assoc; reflexivity.
Qed.

Lemma preempted_at_after srv st sa st' :
  adds not_succeeded st sa -> preempted_at srv sa st' -> preempted_at srv st st'.
Proof.
  intros A (s1 & -> & B); exists s1; split; [reflexivity |].
  eapply adds_trans; eassumption.
Qed.

(** How a goal loop followed by [set_succeeded] can end. *)
Lemma run_goal_outcome srv grace t0 position velocity force ticks st ex st' :
  run_goal srv grace t0 position velocity force ticks st = Some (ex, st') ->
  (ex = ExitReached /\ _reached_goal st' position = true /\
   succeeded_in st st' = true) \/
  (exists now, ex = ExitStall now /\ (grace < now - t0)%Z /\
               _stalled st' = true /\ succeeded_in st st' = true) \/
  (ex = ExitPreempted /\ preempted_at srv st st').
Proof.
  intros E; destruct (run_goal_cases _ _ _ _ _ _ _ _ _ _ E)
    as (sl & El & [[-> ->] | [N ->]]).
  - right; right; split; [reflexivity |].
    destruct (goal_loop_exit _ _ _ _ _ _ _ _ _ _ El) as (_ & s1 & -> & A).
    exists s1; split; [reflexivity | exact A].
  - pose proof (goal_loop_exit _ _ _ _ _ _ _ _ _ _ El) as X.
    assert (A : adds not_succeeded st sl)
      by (apply (goal_loop_adds _ _ _ _ _ _ _ _ _ _ _
                   eq_refl eq_refl eq_refl eq_refl El)).
    destruct ex; try contradiction; try congruence.
    + left; repeat split; [exact X | apply succeeded_in_succeed, A].
    + right; left; exists now; destruct X as (G & S & _).
      repeat split; [exact G | exact S | apply succeeded_in_succeed, A].
Qed.

Lemma succeeded_in_after st sa st' :
  adds not_succeeded st sa -> (exists e, trace st' = trace sa ++ e) ->
  succeeded_in st st' = succeeded_in sa st'.
Proof.
  intros A X; unfold succeeded_in.
  rewrite (new_events_trans st sa st' (adds_extends _ _ _ A) X), existsb_app.
  fold (succeeded_in st sa); rewrite (adds_not_succeeded _ _ A); reflexivity.
Qed.

Lemma run_goal_extends srv grace t0 position velocity force ticks st ex st' :
  run_goal srv grace t0 position velocity force ticks st = Some (ex, st') ->
  adds (fun _ => true) st st'.
Proof.
  intros E; destruct (run_goal_cases _ _ _ _ _ _ _ _ _ _ E)
    as (sl & El & X).
  assert (A : adds (fun _ => true) st sl)
    by (apply (goal_loop_adds _ _ _ _ _ _ (fun _ => true) _ _ _ _
                 eq_refl eq_refl eq_refl eq_refl El)).
  destruct X as [[_ ->] | [_ ->]]; [exact A |].
  eapply adds_trans; [exact A | apply adds_emit; reflexivity].
Qed.




(** ** The stored status *)

Lemma run_goal_status srv grace t0 position velocity force ticks st ex st' :
  run_goal srv grace t0 position velocity force ticks st = Some (ex, st') ->
  _status st' = _status st \/ In (_status st') (loop_samples ticks).
Proof.
  intros E; destruct (run_goal_cases _ _ _ _ _ _ _ _ _ _ E)
    as (sl & El & [[_ ->] | [_ ->]]);
    exact (goal_loop_status _ _ _ _ _ _ _ _ _ _ El).
Qed.

Lemma run_goal_not_early srv grace t0 position velocity force ticks st ex st' :
  run_goal srv grace t0 position velocity force ticks st = Some (ex, st') ->
  ex <> ExitNotActivated /\ ex <> ExitPreemptedEarly.
Proof.
  intros E; destruct (run_goal_outcome _ _ _ _ _ _ _ _ _ _ E)
    as [(-> & _) | [(now & -> & _) | (-> & _)]]; split; discriminate.
Qed.

(** C2.  As the specification words it, a goal callback leaves every field of the
    stored status as the last sample set it.  The no-delay callback, run
    while the stored sample reports an object detected (gOBJ = 2), leaves
    gOBJ = 0 in the stored status. *)
Lemma goal_callback_resets_gOBJ :
  let st := controller_with status_stalled in
  let st' := snd (_execute_no_delay_cb goal_close false st) in
  gOBJ (_status st) = 2%Z /\ gOBJ (_status st') = 0%Z /\
  _status st' <> _status st.
Proof. repeat split; vm_compute; discriminate. Qed.

(** C2 (amended).  The only write of a goal callback to the stored status
    is the reset of gOBJ to 0, made once the callback is past its readiness
    and preemption checks; every other field is left as it is, and a
    callback that returns at one of the two checks writes nothing.  Apart
    from that write the stored status only changes by being replaced
    wholesale with a sample received meanwhile. *)
Theorem callbacks_write_only_gOBJ (goal : CModelGoal) (gpos : Q)
  (preempt : bool) (w : World) (st st' : Controller) (ex : Exit) :
  calibration_ok (cfg st) ->
  (_execute_no_delay_cb goal preempt st = (ex, st') ->
   (ex = ExitNoDelay -> _status st' = set_gOBJ 0 (_status st)) /\
   (ex <> ExitNoDelay -> _status st' = _status st)) /\
  (_execute_cb goal w st = Some (ex, st') ->
   (ex = ExitNotActivated \/ ex = ExitPreemptedEarly ->
    In (_status st') (_status st :: act_samples (w_act w))) /\
   (ex <> ExitNotActivated -> ex <> ExitPreemptedEarly ->
    (exists m, In m (_status st :: act_samples (w_act w)) /\
               _status st' = set_gOBJ 0 m) \/
    In (_status st') (loop_samples (w_loop w)))) /\
  (_simple_gripper_action_cb gpos w st = Some (ex, st') ->
   (ex = ExitNotActivated \/ ex = ExitPreemptedEarly ->
    _status st' = _status st) /\
   (ex <> ExitNotActivated -> ex <> ExitPreemptedEarly ->
    _status st' = set_gOBJ 0 (_status st) \/
    In (_status st') (loop_samples (w_loop w)))).
Proof.
  intros _; split; [| split].
  - intros E; destruct (no_delay_cb_cases _ _ _ _ _ E)
      as [(_ & -> & ->) | [(_ & _ & -> & ->) | (_ & _ & -> & ->)]];
      split; intros X; try reflexivity; try discriminate; congruence.
  - intros E; destruct (execute_cb_cases _ _ _ _ _ E)
      as (v & st0 & Ea & Hc).
    assert (I0 : In (_status st0) (_status st :: act_samples (w_act w))).
    { destruct (activate_status _ _ _ _ _ _ Ea) as [-> | I];
        [left; reflexivity | right; exact I]. }
    destruct Hc as [(_ & -> & ->) | [(_ & _ & -> & ->) | (_ & _ & Eg)]].
    + split; [intros _; exact I0 | intros X; congruence].
    + split; [intros _; exact I0 | intros _ X; congruence].
    + destruct (run_goal_not_early _ _ _ _ _ _ _ _ _ _ Eg) as [N1 N2].
      split; [intros [X | X]; congruence | intros _ _].
      destruct (run_goal_status _ _ _ _ _ _ _ _ _ _ Eg) as [H | H].
      * left; exists (_status st0); split; [exact I0 | exact H].
      * right; exact H.
  - intros E; destruct (simple_cb_cases _ _ _ _ _ E)
      as [(_ & -> & ->) | [(_ & _ & -> & ->) | (_ & _ & Eg)]].
    + split; [intros _; reflexivity | intros X; congruence].
    + split; [intros _; reflexivity | intros _ X; congruence].
    + destruct (run_goal_not_early _ _ _ _ _ _ _ _ _ _ Eg) as [N1 N2].
      split; [intros [X | X]; congruence | intros _ _].
      exact (run_goal_status _ _ _ _ _ _ _ _ _ _ Eg).
Qed.

Lemma callbacks_write_only_gOBJ_witness :
  calibration_ok (cfg (controller_with status_stalled)) /\
  _execute_no_delay_cb goal_close false (controller_with status_stalled)
  = (ExitNoDelay,
     snd (_execute_no_delay_cb goal_close false
            (controller_with status_stalled))) /\
  _status (snd (_execute_no_delay_cb goal_close false
                  (controller_with status_stalled)))
  = set_gOBJ 0 status_stalled.
Proof.
  assert (E : _execute_no_delay_cb goal_close false
                (controller_with status_stalled)
              = (ExitNoDelay,
                 snd (_execute_no_delay_cb goal_close false
                        (controller_with status_stalled))))
    by reflexivity.
  split; [exact calibration_ok_default |]; split; [exact E |].
  exact (proj1 (proj1
           (callbacks_write_only_gOBJ goal_close (8 # 10) false world_stall
              (controller_with status_stalled) _ ExitNoDelay
              calibration_ok_default) E) eq_refl).
Defined.

(** ** A failed activation *)

Lemma not_started_events srv evs :
  forallb (fun e => not_started (kind e)) evs = true -> ~ In (Started srv) evs.
Proof.
  intros F I; rewrite forallb_forall in F.
  specialize (F _ I); discriminate.
Qed.

Lemma serving_kept ok srv st st' :
  adds ok st st' -> serving srv st -> serving srv st'.
Proof.
  intros (_ & evs & T & _) S; unfold serving in *.
  rewrite T; apply in_or_app; left; exact S.
Qed.




(** * Further properties of the conversions *)

Lemma np_clip_comp (x y lo hi : Q) :
  x == y -> np_clip x lo hi == np_clip y lo hi.
Proof.
  intros E; apply Qle_antisym; apply np_clip_mono; rewrite E; apply Qle_refl.
Qed.

Lemma np_clip_low (x lo hi : Q) : x <= lo -> lo <= hi -> np_clip x lo hi == lo.
Proof.
  intros H1 H2; unfold np_clip.
  rewrite (Q.max_r x lo H1); apply Q.min_l; exact H2.
Qed.

Lemma np_clip_high (x lo hi : Q) : hi <= x -> lo <= hi -> np_clip x lo hi == hi.
Proof.
  intros H1 H2; unfold np_clip; apply Q.min_r.
  apply Qle_trans with x; [exact H1 | apply Q.le_max_l].
Qed.

Lemma py_int_comp (x y : Q) : 0 <= x -> x == y -> py_int x = py_int y.
Proof.
  intros H E; rewrite !py_int_floor; [apply Qfloor_comp, E | lra | lra].
Qed.

(** Clamping the argument of a monotone map to a range, then the value to
    the image of the range, is the same as clamping the value alone. *)
Lemma np_clip_before_mono (f : Q -> Q) (lo hi a b x : Q) :
  (forall u v, u <= v -> f u <= f v) -> lo <= hi ->
  f lo == a -> f hi == b ->
  np_clip (f (np_clip x lo hi)) a b == np_clip (f x) a b.
Proof.
  intros M L Ea Eb.
  assert (Hab : a <= b) by (rewrite <- Ea, <- Eb; apply M, L).
  assert (C : forall u v, u == v -> f u == f v)
    by (intros u v E; apply Qle_antisym; apply M; rewrite E; apply Qle_refl).
  destruct (Qlt_le_dec x lo) as [H | H].
  - assert (E1 : f (np_clip x lo hi) == a)
      by (rewrite (C _ _ (np_clip_low x lo hi (Qlt_le_weak _ _ H) L)); exact Ea).
    apply Qeq_trans with a.
    + rewrite (np_clip_comp _ _ a b E1); apply np_clip_low;
        [apply Qle_refl | exact Hab].
    + symmetry; apply np_clip_low; [| exact Hab].
      rewrite <- Ea; apply M, Qlt_le_weak, H.
  - destruct (Qlt_le_dec hi x) as [H' | H'].
    + assert (E1 : f (np_clip x lo hi) == b)
        by (rewrite (C _ _ (np_clip_high x lo hi (Qlt_le_weak _ _ H') L));
            exact Eb).
      apply Qeq_trans with b.
      * rewrite (np_clip_comp _ _ a b E1); apply np_clip_high;
          [apply Qle_refl | exact Hab].
      * symmetry; apply np_clip_high; [| exact Hab].
        rewrite <- Eb; apply M, Qlt_le_weak, H'.
    + apply np_clip_comp, C, np_clip_id; assumption.
Qed.

(** The same for a map that reverses the order. *)
Lemma np_clip_before_anti (f : Q -> Q) (lo hi a b x : Q) :
  (forall u v, u <= v -> f v <= f u) -> lo <= hi ->
  f lo == b -> f hi == a ->
  np_clip (f (np_clip x lo hi)) a b == np_clip (f x) a b.
Proof.
  intros M L Eb Ea.
  assert (Hab : a <= b) by (rewrite <- Ea, <- Eb; apply M, L).
  assert (C : forall u v, u == v -> f u == f v)
    by (intros u v E; apply Qle_antisym; apply M; rewrite E; apply Qle_refl).
  destruct (Qlt_le_dec x lo) as [H | H].
  - assert (E1 : f (np_clip x lo hi) == b)
      by (rewrite (C _ _ (np_clip_low x lo hi (Qlt_le_weak _ _ H) L)); exact Eb).
    apply Qeq_trans with b.
    + rewrite (np_clip_comp _ _ a b E1); apply np_clip_high;
        [apply Qle_refl | exact Hab].
    + symmetry; apply np_clip_high; [| exact Hab].
      rewrite <- Eb; apply M, Qlt_le_weak, H.
  - destruct (Qlt_le_dec hi x) as [H' | H'].
    + assert (E1 : f (np_clip x lo hi) == a)
        by (rewrite (C _ _ (np_clip_high x lo hi (Qlt_le_weak _ _ H') L));
            exact Ea).
      apply Qeq_trans with a.
      * rewrite (np_clip_comp _ _ a b E1); apply np_clip_low;
          [apply Qle_refl | exact Hab].
      * symmetry; apply np_clip_low; [| exact Hab].
        rewrite <- Ea; apply M, Qlt_le_weak, H'.
    + apply np_clip_comp, C, np_clip_id; assumption.
Qed.

Section Scale255.

Variables lo hi : Q.
Hypothesis range : lo < hi.

Lemma scale255_mono (u v : Q) : u <= v -> scale255 lo hi u <= scale255 lo hi v.
Proof using range.
  intros H; unfold scale255, Qdiv.
  assert (Hi : 0 < / (hi - lo)) by (apply Qinv_lt_0_compat; lra).
  set (i := / (hi - lo)) in *.
  assert (0 <= (255 * i) * (v - u))
    by (apply Qmult_le_0_compat; [apply Qmult_le_0_compat |]; lra).
  lra.
Qed.

Lemma scale255_lo : scale255 lo hi lo == 0.
Proof using range. unfold scale255; field; lra. Qed.

Lemma scale255_hi : scale255 lo hi hi == 255.
Proof using range. unfold scale255; field; lra. Qed.

Lemma counts255_floor (x : Q) :
  py_int (np_clip (scale255 lo hi x) 0 255)
  = Qfloor (np_clip (scale255 lo hi x) 0 255).
Proof using Type. apply py_int_floor, np_clip_lower; discriminate. Qed.

Lemma counts255_mono (u v : Q) :
  u <= v ->
  (py_int (np_clip (scale255 lo hi u) 0 255)
   <= py_int (np_clip (scale255 lo hi v) 0 255))%Z.
Proof using range.
  intros H; rewrite !counts255_floor.
  apply Qfloor_resp_le, np_clip_mono, scale255_mono, H.
Qed.

Lemma counts255_low (x : Q) :
  x <= lo -> py_int (np_clip (scale255 lo hi x) 0 255) = 0%Z.
Proof using range.
  intros H; rewrite counts255_floor.
  rewrite (Qfloor_comp _ 0); [reflexivity |].
  apply np_clip_low; [| discriminate].
  rewrite <- scale255_lo; apply scale255_mono, H.
Qed.

Lemma counts255_high (x : Q) :
  hi <= x -> py_int (np_clip (scale255 lo hi x) 0 255) = 255%Z.
Proof using range.
  intros H; rewrite counts255_floor.
  rewrite (Qfloor_comp _ 255); [reflexivity |].
  apply np_clip_high; [| discriminate].
  rewrite <- scale255_hi; apply scale255_mono, H.
Qed.

Lemma counts255_clip (x : Q) :
  py_int (np_clip (scale255 lo hi (np_clip x lo hi)) 0 255)
  = py_int (np_clip (scale255 lo hi x) 0 255).
Proof using range.
  apply py_int_comp; [apply np_clip_lower; discriminate |].
  apply np_clip_before_mono;
    [apply scale255_mono | lra | apply scale255_lo | apply scale255_hi].
Qed.

End Scale255.

Lemma counts255_range (lo hi x : Q) :
  (0 <= py_int (np_clip (scale255 lo hi x) 0 255) <= 255)%Z.
Proof.
  rewrite counts255_floor; split.
  - apply (Qfloor_resp_le 0), np_clip_lower; discriminate.
  - apply (Qfloor_resp_le _ 255), np_clip_upper.
Qed.

Lemma raw_count_comp (c : Config) (u v : Q) :
  0 < _min_gap_counts c -> _min_gap c < _max_gap c ->
  u == v -> raw_count c u == raw_count c v.
Proof.
  intros Hc Hg E; apply Qle_antisym; apply raw_count_anti;
    try assumption; rewrite E; apply Qle_refl.
Qed.

Lemma raw_position_anti (c : Config) (u v : Q) :
  0 < _min_gap_counts c -> _min_gap c < _max_gap c ->
  u <= v -> raw_position c v <= raw_position c u.
Proof.
  intros Hc Hg H; unfold raw_position, Qdiv.
  assert (Hp : 0 < / _min_gap_counts c) by (apply Qinv_lt_0_compat; exact Hc).
  assert (Y : / (- _min_gap_counts c) == - / _min_gap_counts c)
    by (field; lra).
  assert (Hi : / (- _min_gap_counts c) < 0) by lra.
  clear Y Hp.
  set (i := / (- _min_gap_counts c)) in *.
  assert (0 <= ((_max_gap c - _min_gap c) * (- i)) * (v - u))
    by (apply Qmult_le_0_compat; [apply Qmult_le_0_compat |]; lra).
  lra.
Qed.

(** X1.  The gap width read from the status is always inside the gap
    range, whatever the position register holds. *)
Theorem get_position_in_range (st : Controller) :
  calibration_ok (cfg st) ->
  _min_gap (cfg st) <= _get_position st <= _max_gap (cfg st).
Proof.
  intros (_ & Hg & _); unfold _get_position, countsToPosition; split.
  - apply np_clip_lower; lra.
  - apply np_clip_upper.
Qed.

Lemma get_position_in_range_witness :
  calibration_ok (cfg (controller_with status_half_open)) /\
  _min_gap default_config <= _get_position (controller_with status_half_open)
  <= _max_gap default_config.
Proof.
  split; [exact calibration_ok_default |].
  exact (get_position_in_range (controller_with status_half_open)
           calibration_ok_default).
Defined.

(** X2.  A larger position register never reads as a wider gap, and a
    register at or above [min_gap_counts] reads as the lower clamp of the
    range whenever the closed gap is not negative. *)
Theorem countsToPosition_decreasing (c : Config) (g1 g2 : Q) :
  calibration_ok c -> g1 <= g2 ->
  countsToPosition c g2 <= countsToPosition c g1 /\
  (0 <= _min_gap c -> _min_gap_counts c <= g1 ->
   countsToPosition c g1 == _min_gap c).
Proof.
  intros (Hc & Hg & _) H; split.
  - apply np_clip_mono, (raw_position_anti c g1 g2 Hc Hg H).
  - intros Hm Hge; unfold countsToPosition; fold (raw_position c g1).
    apply np_clip_low; [| lra].
    assert (E : raw_position c (_min_gap_counts c) == 0)
      by (unfold raw_position; field; lra).
    pose proof (raw_position_anti c _ _ Hc Hg Hge); lra.
Qed.

Lemma countsToPosition_decreasing_witness :
  calibration_ok default_config /\ 100 <= 200 /\
  countsToPosition default_config 200 <= countsToPosition default_config 100.
Proof.
  split; [exact calibration_ok_default |]; split; [discriminate |].
  exact (proj1 (countsToPosition_decreasing default_config 100 200
                  calibration_ok_default ltac:(discriminate))).
Defined.

(** X3.  Every command [_goto_position] publishes keeps the gripper
    activated with go-to set, a position register between 0 and
    [min_gap_counts] and speed and force registers between 0 and 255,
    whatever position, speed and force it is asked for. *)
Theorem goto_command_in_range (c : Config) (pos vel force : Q) :
  calibration_ok c ->
  let m := goto_command c pos vel force in
  rACT m = 1%Z /\ rGTO m = 1%Z /\
  (0 <= rPR m)%Z /\ inject_Z (rPR m) <= _min_gap_counts c /\
  (0 <= rSP m <= 255)%Z /\ (0 <= rFR m <= 255)%Z.
Proof.
  intros (Hc & Hg & _); cbv zeta; simpl.
  split; [reflexivity |]; split; [reflexivity |].
  rewrite (positionToCounts_floor c Hc).
  split; [| split; [| split]].
  - apply (Qfloor_resp_le 0), np_clip_lower; lra.
  - eapply Qle_trans; [apply Qfloor_le | apply np_clip_upper].
  - apply (counts255_range (_min_speed c) (_max_speed c) vel).
  - apply (counts255_range (_min_force c) (_max_force c) force).
Qed.

Lemma goto_command_in_range_witness :
  calibration_ok default_config /\
  (0 <= rSP (goto_command default_config 1 1 1000) <= 255)%Z.
Proof.
  split; [exact calibration_ok_default |].
  apply (goto_command_in_range default_config 1 1 1000 calibration_ok_default).
Defined.



(** X5.  The position register saturates: a position at or below
    [min_gap] gives the integer part of [min_gap_counts], a position at or
    above [max_gap] gives 0. *)
Theorem positionToCounts_saturates (c : Config) (p : Q) :
  calibration_ok c ->
  (p <= _min_gap c -> positionToCounts c p = Qfloor (_min_gap_counts c)) /\
  (_max_gap c <= p -> positionToCounts c p = 0%Z).
Proof.
  intros (Hc & Hg & _).
  assert (Emin : raw_count c (_min_gap c) == _min_gap_counts c)
    by (unfold raw_count; field; lra).
  assert (Emax : raw_count c (_max_gap c) == 0)
    by (unfold raw_count; field; lra).
  split; intros H; rewrite (positionToCounts_floor c Hc).
  - apply Qfloor_comp, np_clip_high; [| lra].
    rewrite <- Emin; apply raw_count_anti; assumption.
  - rewrite (Qfloor_comp _ 0); [reflexivity |].
    apply np_clip_low; [| lra].
    rewrite <- Emax; apply raw_count_anti; assumption.
Qed.

Lemma positionToCounts_saturates_witness :
  calibration_ok default_config /\
  (_max_gap default_config <= 1 -> positionToCounts default_config 1 = 0%Z).
Proof.
  split; [exact calibration_ok_default |].
  apply (positionToCounts_saturates default_config 1 calibration_ok_default).
Defined.



(** X7.  With the closed gap at zero and a register count narrower than
    the tolerance of 3 mm, a gripper whose position register holds the
    count that was commanded for a position in range has reached that
    goal. *)
Theorem commanded_register_reaches_goal (st : Controller) (p : Q) :
  calibration_ok (cfg st) -> _min_gap (cfg st) == 0 ->
  count_width (cfg st) < 3 # 1000 ->
  _min_gap (cfg st) <= p <= _max_gap (cfg st) ->
  gPO (_status st) = positionToCounts (cfg st) p ->
  _reached_goal st p = true.
Proof.
  intros (Hc & Hg & _) Hz Hw Hp Hr.
  pose proof (roundtrip_zero_min_gap (cfg st) Hc Hg p Hz Hp) as E.
  unfold roundtrip_error in E; rewrite <- Hr in E.
  unfold _reached_goal, _reached_goal_tol, _get_position.
  rewrite Qabs_Qminus.
  destruct (Qle_bool (3 # 1000) _) eqn:B; [| reflexivity].
  apply Qle_bool_iff in B; lra.
Qed.

Lemma commanded_register_reaches_goal_witness :
  calibration_ok (cfg (controller_with status_half_open)) /\
  _min_gap (cfg (controller_with status_half_open)) == 0 /\
  count_width (cfg (controller_with status_half_open)) < 3 # 1000 /\
  _min_gap default_config <= 425 # 10000 <= _max_gap default_config /\
  gPO (_status (controller_with status_half_open))
  = positionToCounts default_config (425 # 10000) /\
  _reached_goal (controller_with status_half_open) (425 # 10000) = true.
Proof.
  split; [exact calibration_ok_default |].
  split; [reflexivity |]; split; [reflexivity |].
  split; [split; discriminate |]; split; [reflexivity |].
  apply (commanded_register_reaches_goal (controller_with status_half_open)
           (425 # 10000) calibration_ok_default);
    [reflexivity | reflexivity | split; discriminate | reflexivity].
Defined.

(** * Further properties of the callbacks *)

Lemma joint_positions_app l1 l2 :
  joint_positions (l1 ++ l2) = joint_positions l1 ++ joint_positions l2.
Proof.
  induction l1 as [| e r IH]; [reflexivity |].
  destruct e; simpl; rewrite IH; reflexivity.
Qed.

Lemma joint_efforts_app l1 l2 :
  joint_efforts (l1 ++ l2) = joint_efforts l1 ++ joint_efforts l2.
Proof.
  induction l1 as [| e r IH]; [reflexivity |].
  destruct e; simpl; rewrite IH; reflexivity.
Qed.

Lemma feedback_positions_app l1 l2 :
  feedback_positions (l1 ++ l2)
  = feedback_positions l1 ++ feedback_positions l2.
Proof.
  induction l1 as [| e r IH]; [reflexivity |].
  destruct e; simpl; rewrite IH; reflexivity.
Qed.

Lemma status_cb_events msg now st :
  new_events st (_status_cb msg now st)
  = [JointStatePub (joint_position (cfg st) (gPO (_status st)))
       (current_velocity (_status_cb msg now st)) 0;
     StatusPub (mkStatusFeedback (_ready (_status_cb msg now st))
                  (countsToPosition (cfg st) (inject_Z (gPO msg)))
                  (current_velocity (_status_cb msg now st))
                  (_stalled (_status_cb msg now st)))].
Proof.
  apply new_events_app.
  unfold _status_cb, emit; simpl; rewrite <- app_assoc; reflexivity.
Qed.

Lemma deliver_cons a l st :
  deliver (a :: l) st = deliver l (_status_cb (fst a) (time_sec (snd a)) st).
Proof. reflexivity. Qed.

Lemma deliver_events_cons a l st :
  new_events st (deliver (a :: l) st)
  = new_events st (_status_cb (fst a) (time_sec (snd a)) st)
    ++ new_events (_status_cb (fst a) (time_sec (snd a)) st)
         (deliver l (_status_cb (fst a) (time_sec (snd a)) st)).
Proof.
  rewrite deliver_cons; apply new_events_trans.
  - apply (adds_extends (fun _ => true)), status_cb_adds; reflexivity.
  - apply (adds_extends (fun _ => true)), deliver_adds; reflexivity.
Qed.

Lemma last_of_map {A B} (f : A -> B) (l : list A) (d : A) :
  last (map f l) (f d) = f (last l d).
Proof.
  induction l as [| x [| y l'] IH]; [reflexivity | reflexivity |].
  exact IH.
Qed.

Lemma deliver_snoc l a st :
  deliver (l ++ [a]) st = _status_cb (fst a) (time_sec (snd a)) (deliver l st).
Proof. unfold deliver; rewrite fold_left_app; reflexivity. Qed.

Lemma deliver_cfg l st : cfg (deliver l st) = cfg st.
Proof. destruct (deliver_adds (fun _ => true) l st eq_refl) as [C _]; exact C. Qed.

(** X8.  [_status_cb] publishes one joint state and one status feedback
    per message.  The feedback carries the gap width of the message's own
    register; the joint state has effort zero and carries the joint
    position of the register that was stored before the message, so the
    joint positions lag the messages by one sample. *)
Theorem status_messages_publish_once (arrivals : list Arrival)
  (st : Controller) :
  calibration_ok (cfg st) ->
  let evs := new_events st (deliver arrivals st) in
  feedback_positions evs
  = map (fun g => countsToPosition (cfg st) (inject_Z g)) (registers arrivals)
  /\ joint_positions evs
     = map (joint_position (cfg st))
         (removelast (gPO (_status st) :: registers arrivals))
  /\ joint_efforts evs = repeat 0 (length arrivals).
Proof.
  intros _; cbv zeta; revert st.
  induction arrivals as [| a l IH]; intros st.
  - unfold deliver, new_events; simpl; rewrite skipn_all; repeat split.
  - rewrite deliver_events_cons, status_cb_events.
    destruct (IH (_status_cb (fst a) (time_sec (snd a)) st)) as (F & J & E).
    change (cfg (_status_cb (fst a) (time_sec (snd a)) st)) with (cfg st)
      in F, J.
    rewrite status_cb_status in J.
    rewrite feedback_positions_app, joint_positions_app, joint_efforts_app.
    rewrite F, J, E; repeat split.
Qed.

Lemma status_messages_publish_once_witness :
  calibration_ok (cfg (controller_with status_half_open)) /\
  joint_efforts
    (new_events (controller_with status_half_open)
       (deliver [(status_stalled, 1%Z); (status_inactive, 2%Z)]
          (controller_with status_half_open)))
  = [0; 0].
Proof.
  split; [exact calibration_ok_default |].
  apply (status_messages_publish_once
           [(status_stalled, 1%Z); (status_inactive, 2%Z)]
           (controller_with status_half_open) calibration_ok_default).
Defined.

(** X9.  After the messages of a sleep were handled, the stored status is
    the last message and the single-slot memory holds the time at which it
    was handled and the joint position of the register stored just before
    it. *)
Theorem status_memory_is_single_slot (arrivals : list Arrival) (a : Arrival)
  (st : Controller) :
  calibration_ok (cfg st) ->
  let st' := deliver (arrivals ++ [a]) st in
  _status st' = fst a /\
  last_time st' = time_sec (snd a) /\
  last_position st'
  = joint_position (cfg st) (last (registers arrivals) (gPO (_status st))) /\
  current_position st' = last_position st'.
Proof.
  intros _; cbv zeta; rewrite deliver_snoc.
  split; [reflexivity |]; split; [reflexivity |]; split; [| reflexivity].
  change (joint_position (cfg (deliver arrivals st))
            (gPO (_status (deliver arrivals st)))
          = joint_position (cfg st)
              (last (registers arrivals) (gPO (_status st)))).
  rewrite deliver_cfg, deliver_status.
  unfold registers; rewrite <- (map_map fst gPO), last_of_map; reflexivity.
Qed.

Lemma status_memory_is_single_slot_witness :
  calibration_ok (cfg (controller_with status_half_open)) /\
  last_time
    (deliver ([(status_stalled, 1%Z)] ++ [(status_inactive, 2%Z)])
       (controller_with status_half_open))
  = time_sec 2.
Proof.
  split; [exact calibration_ok_default |].
  apply (status_memory_is_single_slot [(status_stalled, 1%Z)]
           (status_inactive, 2%Z) (controller_with status_half_open)
           calibration_ok_default).
Defined.

Lemma new_events_refl st : new_events st st = [].
Proof. unfold new_events; apply skipn_all. Qed.

Lemma new_events_emit e st : new_events st (emit e st) = [e].
Proof. apply new_events_app; reflexivity. Qed.

Lemma activate_commands timeout start ticks st v st' :
  _activate timeout start ticks st = Some (v, st') ->
  exists k, (k <= length ticks)%nat /\
            commands (new_events st st') = repeat activation_command k.
Proof.
  revert st; induction ticks as [| tk r IH]; intros st; simpl.
  - destruct (_ready st); [| discriminate].
    intros E; injection E as _ <-; exists 0%nat.
    rewrite new_events_refl; split; [lia | reflexivity].
  - destruct (_ready st).
    { intros E; injection E as _ <-; exists 0%nat.
      rewrite new_events_refl; split; [lia | reflexivity]. }
    destruct (a_shutdown tk).
    { intros E; injection E as _ <-; exists 0%nat.
      unfold _preempt; rewrite new_events_emit; split; [lia | reflexivity]. }
    destruct (negb _).
    { intros E; injection E as _ <-; exists 0%nat.
      rewrite new_events_emit; split; [lia | reflexivity]. }
    intros E; destruct (IH _ E) as (k & Hk & Hc); exists (S k).
    split; [lia |].
    rewrite (new_events_trans st (activate_body tk st)).
    + rewrite commands_app, activate_body_commands, Hc; reflexivity.
    + apply (adds_extends (fun _ => true)), activate_body_adds; reflexivity.
    + apply (adds_extends (fun _ => true)).
      apply (activate_adds _ _ _ _ _ _ _ eq_refl eq_refl eq_refl eq_refl E).
Qed.

Lemma activate_true_ready timeout start ticks st v st' :
  _activate timeout start ticks st = Some (v, st') ->
  v = PyBool (_ready st').
Proof.
  revert st; induction ticks as [| tk r IH]; intros st; simpl.
  - destruct (_ready st) eqn:R; [| discriminate].
    intros E; injection E as <- <-; rewrite R; reflexivity.
  - destruct (_ready st) eqn:R.
    { intros E; injection E as <- <-; rewrite R; reflexivity. }
    destruct (a_shutdown tk).
    { intros E; injection E as <- <-.
      change (_ready (_preempt st)) with (_ready st); rewrite R; reflexivity. }
    destruct (negb _).
    { intros E; injection E as <- <-.
      change (_ready (emit (LogWarn WarnActivateFailed) st)) with (_ready st).
      rewrite R; reflexivity. }
    apply IH.
Qed.

(** X10.  Whenever [_activate] returns, it returns whether the device is
    ready at that moment, and all it has published is the activation
    command, at most once per tick of its loop. *)
Theorem activate_returns_readiness (timeout start : Q) (ticks : list ActTick)
  (st st' : Controller) (v : PyVal) :
  calibration_ok (cfg st) ->
  _activate timeout start ticks st = Some (v, st') ->
  v = PyBool (_ready st') /\
  exists k, (k <= length ticks)%nat /\
            commands (new_events st st') = repeat activation_command k.
Proof.
  intros _ E; split;
    [exact (activate_true_ready _ _ _ _ _ _ E)
    | exact (activate_commands _ _ _ _ _ _ E)].
Qed.

Lemma activate_returns_readiness_witness :
  calibration_ok (cfg (controller_with status_inactive)) /\
  _activate 5 0 [tick_ready_arrives] (controller_with status_inactive)
  = Some (PyBool true,
          act_run [tick_ready_arrives] (controller_with status_inactive)) /\
  PyBool true
  = PyBool (_ready (act_run [tick_ready_arrives]
                      (controller_with status_inactive))).
Proof.
  split; [exact calibration_ok_default |]; split; [reflexivity |].
  apply (activate_returns_readiness 5 0 [tick_ready_arrives]
           (controller_with status_inactive) _ (PyBool true)
           calibration_ok_default eq_refl).
Defined.

(** X11.  When the node is shut down while the device is still not ready,
    [_activate] returns [False] at that tick without publishing another
    command, and the goal it sets preempted is the one of the no-delay
    server, also when it was called for a goal of the old server. *)
Theorem activate_shutdown (timeout start : Q) (pre post : list ActTick)
  (tk : ActTick) (goal : CModelGoal) (w : World) (st : Controller) :
  calibration_ok (cfg st) ->
  waits timeout start pre st -> _ready (act_run pre st) = false ->
  a_shutdown tk = true ->
  _activate timeout start (pre ++ tk :: post) st
  = Some (PyBool false, emit (SetPreempted ServerNoDelay) (act_run pre st)) /\
  (timeout = default_timeout -> start = time_sec (w_act_start w) ->
   w_act w = pre ++ tk :: post ->
   exists st',
     _execute_cb goal w st = Some (ExitNotActivated, st') /\
     new_events (act_run pre st) st'
     = [SetPreempted ServerNoDelay; LogWarn WarnGoalNotAccepted]).
Proof.
  intros _ Hw Hr Hs.
  assert (E : _activate timeout start (pre ++ tk :: post) st
              = Some (PyBool false,
                      emit (SetPreempted ServerNoDelay) (act_run pre st))).
  { rewrite (activate_waits _ _ _ _ _ Hw); simpl; rewrite Hr, Hs; reflexivity. }
  split; [exact E |].
  intros -> -> Ew; rewrite <- Ew in E.
  assert (R : _ready st = false).
  { destruct (_ready st) eqn:R; [| reflexivity].
    rewrite (activate_ready _ _ _ _ R) in E; discriminate. }
  eexists; split.
  - unfold _execute_cb; rewrite R, E; reflexivity.
  - apply new_events_app; simpl; rewrite <- app_assoc; reflexivity.
Qed.

Lemma activate_shutdown_witness :
  calibration_ok (cfg (controller_with status_inactive)) /\
  waits 5 0 [tick_quiet] (controller_with status_inactive) /\
  _ready (act_run [tick_quiet] (controller_with status_inactive)) = false /\
  a_shutdown (mkActTick true 200000000 []) = true /\
  _activate 5 0 ([tick_quiet] ++ mkActTick true 200000000 [] :: [])
    (controller_with status_inactive)
  = Some (PyBool false,
          emit (SetPreempted ServerNoDelay)
            (act_run [tick_quiet] (controller_with status_inactive))).
Proof.
  assert (W : waits 5 0 [tick_quiet] (controller_with status_inactive))
    by (simpl; repeat split; discriminate).
  split; [exact calibration_ok_default |]; split; [exact W |].
  split; [reflexivity |]; split; [reflexivity |].
  exact (proj1 (activate_shutdown 5 0 [tick_quiet] []
                  (mkActTick true 200000000 []) goal_close world_late
                  (controller_with status_inactive) calibration_ok_default
                  W eq_refl eq_refl)).
Defined.

Lemma serving_start_servers srv st : serving srv (start_servers st).
Proof.
  unfold serving, start_servers; simpl.
  rewrite <- !app_assoc; apply in_or_app; right.
  destruct srv; simpl; auto.
Qed.

Lemma not_serving_from_empty srv st st' :
  trace st = [] -> adds not_started st st' -> ~ serving srv st'.
Proof.
  intros T (_ & evs & T' & F) S; unfold serving in S.
  rewrite T', T in S; exact (not_started_events srv evs F S).
Qed.

(** X12.  [__init__] starts the three action servers together or not at
    all.  Asked to activate, it starts them exactly when the device is
    ready when it returns; asked not to activate, it always starts them and
    publishes no command. *)
Theorem init_starts_servers_when_ready (c : Config) (activate : bool)
  (w : InitWorld) (st : Controller) :
  calibration_ok c ->
  init c activate w = Some st ->
  ((forall srv, serving srv st) \/ (forall srv, ~ serving srv st)) /\
  (activate = true -> ((forall srv, serving srv st) <-> _ready st = true)) /\
  (activate = false ->
   (forall srv, serving srv st) /\ commands (trace st) = []).
Proof.
  intros _; unfold init.
  set (st1 := deliver (i_sleep1 w) (initial_state c w)).
  assert (A1 : adds not_started (initial_state c w) st1)
    by (apply deliver_adds; reflexivity).
  destruct activate; simpl.
  - destruct (_ready st1) eqn:R1; simpl.
    + intros E; injection E as <-.
      split; [left; intros; apply serving_start_servers |].
      split; [| discriminate].
      intros _; split; [intros _; exact R1 | intros; apply serving_start_servers].
    + destruct (_activate default_timeout (time_sec (i_start w)) (i_act w)
                  (deliver (i_sleep2 w) st1)) as [[v st2] |] eqn:Ea;
        [| discriminate].
      assert (A2 : adds not_started (initial_state c w) st2).
      { eapply adds_trans; [exact A1 |].
        eapply adds_trans; [apply deliver_adds; reflexivity |].
        apply (activate_adds _ _ _ _ _ _ _ eq_refl eq_refl eq_refl eq_refl Ea). }
      pose proof (activate_true_ready _ _ _ _ _ _ Ea) as Ev; subst v; simpl.
      destruct (_ready st2) eqn:R2; simpl; intros E; injection E as <-.
      * split; [left; intros; apply serving_start_servers |].
        split; [| discriminate].
        intros _; split; [intros _; exact R2 | intros; apply serving_start_servers].
      * assert (N : forall srv, ~ serving srv st2)
          by (intros srv;
              apply (not_serving_from_empty srv (initial_state c w) st2
                       eq_refl A2)).
        split; [right; exact N |].
        split; [| discriminate].
        intros _; split; [intros S; destruct (N ServerOld (S ServerOld)) | congruence].
  - intros E; injection E as <-.
    split; [left; intros; apply serving_start_servers |].
    split; [discriminate |].
    intros _; split; [intros; apply serving_start_servers |].
    destruct (deliver_adds only_telemetry (i_sleep1 w) (initial_state c w) eq_refl)
      as (_ & evs & T & F).
    unfold start_servers, emit; simpl; fold st1.
    rewrite !commands_app; simpl; rewrite !app_nil_r.
    unfold st1; rewrite T; simpl.
    exact (commands_none only_telemetry evs eq_refl F).
Qed.

Lemma init_starts_servers_when_ready_witness :
  calibration_ok default_config /\
  init default_config true init_world_late
  = Some (emit (LogWarn WarnActivateFailed)
            (initial_state default_config init_world_late)) /\
  ((forall srv,
      serving srv (emit (LogWarn WarnActivateFailed)
                     (initial_state default_config init_world_late))) \/
   (forall srv,
      ~ serving srv (emit (LogWarn WarnActivateFailed)
                       (initial_state default_config init_world_late)))).
Proof.
  split; [exact calibration_ok_default |]; split; [reflexivity |].
  exact (proj1 (init_starts_servers_when_ready default_config true
                  init_world_late _ calibration_ok_default eq_refl)).
Defined.

Lemma run_goal_at_goal srv grace t0 position velocity force ticks st :
  _reached_goal st position = true ->
  run_goal srv grace t0 position velocity force ticks st
  = Some (ExitReached, succeed srv position st).
Proof.
  intros R; unfold run_goal; destruct ticks; simpl; rewrite R; reflexivity.
Qed.

Lemma execute_cb_at_goal goal w st :
  _ready st = true -> w_preempt0 w = false ->
  _reached_goal st (target (cfg st) goal) = true ->
  _execute_cb goal w st
  = Some (ExitReached,
          succeed ServerOld (target (cfg st) goal)
            (set_status (set_gOBJ 0 (_status st)) st)).
Proof.
  intros R P G; unfold _execute_cb; rewrite R; simpl; rewrite P.
  apply run_goal_at_goal; exact G.
Qed.

Lemma simple_cb_at_goal gpos w st :
  _ready st = true -> w_preempt0 w = false ->
  _reached_goal st (simple_target (cfg st) gpos) = true ->
  _simple_gripper_action_cb gpos w st
  = Some (ExitReached,
          succeed ServerSimple (simple_target (cfg st) gpos)
            (set_status (set_gOBJ 0 (_status st)) st)).
Proof.
  intros R P G; unfold _simple_gripper_action_cb; rewrite R; simpl; rewrite P.
  apply run_goal_at_goal; exact G.
Qed.

Lemma succeed_after_reset_events srv position st :
  _reached_goal st position = true ->
  new_events st
    (succeed srv position (set_status (set_gOBJ 0 (_status st)) st))
  = [SetSucceeded srv (mkReport (_get_position st) false true)].
Proof.
  intros G; apply new_events_app; unfold succeed, report; simpl.
  change (_reached_goal (set_status (set_gOBJ 0 (_status st)) st) position)
    with (_reached_goal st position).
  rewrite G; reflexivity.
Qed.

(** X13.  A goal that is already within tolerance when a polling callback
    takes it is set succeeded at once: no command is published (so the
    requested speed and force are never sent), whatever the ticks that
    would follow, and the result reports the position held, reached and
    not stalled. *)
Theorem goal_already_reached (goal : CModelGoal) (gpos : Q) (w : World)
  (st : Controller) :
  calibration_ok (cfg st) -> _ready st = true -> w_preempt0 w = false ->
  (_reached_goal st (target (cfg st) goal) = true ->
   exists st',
     _execute_cb goal w st = Some (ExitReached, st') /\
     new_events st st'
     = [SetSucceeded ServerOld (mkReport (_get_position st) false true)]) /\
  (_reached_goal st (simple_target (cfg st) gpos) = true ->
   exists st',
     _simple_gripper_action_cb gpos w st = Some (ExitReached, st') /\
     new_events st st'
     = [SetSucceeded ServerSimple (mkReport (_get_position st) false true)]).
Proof.
  intros _ R P; split; intros G; eexists; split.
  - apply execute_cb_at_goal; assumption.
  - apply succeed_after_reset_events, G.
  - apply simple_cb_at_goal; assumption.
  - apply succeed_after_reset_events, G.
Qed.

Lemma goal_already_reached_witness :
  calibration_ok (cfg (controller_with status_half_open)) /\
  _ready (controller_with status_half_open) = true /\
  w_preempt0 world_stall = false /\
  _reached_goal (controller_with status_half_open)
    (target default_config (mkGoal (425 # 10000) (5 # 100) 50)) = true /\
  exists st',
    _execute_cb (mkGoal (425 # 10000) (5 # 100) 50) world_stall
      (controller_with status_half_open)
    = Some (ExitReached, st').
Proof.
  split; [exact calibration_ok_default |].
  split; [reflexivity |]; split; [reflexivity |]; split; [reflexivity |].
  destruct (proj1 (goal_already_reached (mkGoal (425 # 10000) (5 # 100) 50)
                     (4 # 10) world_stall (controller_with status_half_open)
                     calibration_ok_default eq_refl eq_refl) eq_refl)
    as (st' & E & _).
  exists st'; exact E.
Defined.

Lemma np_clip_idem (x lo hi : Q) :
  lo <= hi -> np_clip (np_clip x lo hi) lo hi == np_clip x lo hi.
Proof.
  intros H; apply np_clip_id; [apply np_clip_lower, H | apply np_clip_upper].
Qed.

Lemma countsToPosition_comp (c : Config) (u v : Q) :
  0 < _min_gap_counts c -> _min_gap c < _max_gap c ->
  u == v -> countsToPosition c u == countsToPosition c v.
Proof.
  intros Hc Hg E; unfold countsToPosition.
  fold (raw_position c u); fold (raw_position c v).
  apply np_clip_comp, Qle_antisym; apply raw_position_anti;
    try assumption; rewrite E; apply Qle_refl.
Qed.

(** The target of the simple-gripper callback for the joint position that
    [_status_cb] publishes for a register is the gap width [_get_position]
    reads from that register. *)
Lemma simple_target_of_joint_position (c : Config) (g : Z) :
  calibration_ok c ->
  simple_target c (joint_position c g) == countsToPosition c (inject_Z g).
Proof.
  intros (Hc & Hg & _ & _ & Hm); unfold simple_target.
  apply Qeq_trans
    with (countsToPosition c
            (joint_position c g * _min_gap_counts c / _counts_to_meters c)).
  { exact (np_clip_idem _ _ _ (Qlt_le_weak _ _ Hg)). }
  apply countsToPosition_comp; try assumption.
  unfold joint_position; field; split; lra.
Qed.

(** X14.  The joint position published for the stored register, sent back
    as the goal of the simple-gripper action, is a goal already reached:
    the callback sets it succeeded without publishing a command. *)
Theorem simple_goal_round_trip (w : World) (st : Controller) :
  calibration_ok (cfg st) -> _ready st = true -> w_preempt0 w = false ->
  let gpos := joint_position (cfg st) (gPO (_status st)) in
  simple_target (cfg st) gpos == _get_position st /\
  exists st',
    _simple_gripper_action_cb gpos w st = Some (ExitReached, st') /\
    new_events st st'
    = [SetSucceeded ServerSimple (mkReport (_get_position st) false true)].
Proof.
  intros Hc R P; cbv zeta.
  pose proof (simple_target_of_joint_position (cfg st) (gPO (_status st)) Hc)
    as E.
  split; [exact E |].
  assert (G : _reached_goal st
                (simple_target (cfg st)
                   (joint_position (cfg st) (gPO (_status st)))) = true).
  { unfold _reached_goal, _reached_goal_tol.
    destruct (Qle_bool (3 # 1000) _) eqn:B; [| reflexivity].
    apply Qle_bool_iff in B; unfold _get_position in B.
    assert (Z0 : Qabs
                   (simple_target (cfg st)
                      (joint_position (cfg st) (gPO (_status st)))
                    - countsToPosition (cfg st) (inject_Z (gPO (_status st))))
                 == 0).
    { assert (D : simple_target (cfg st)
                    (joint_position (cfg st) (gPO (_status st)))
                  - countsToPosition (cfg st) (inject_Z (gPO (_status st)))
                  == 0) by lra.
      rewrite D; reflexivity. }
    lra. }
  eexists; split.
  - apply simple_cb_at_goal; assumption.
  - apply succeed_after_reset_events, G.
Qed.

Lemma simple_goal_round_trip_witness :
  calibration_ok (cfg (controller_with status_half_open)) /\
  _ready (controller_with status_half_open) = true /\
  w_preempt0 world_stall = false /\
  simple_target default_config (joint_position default_config 115)
  == _get_position (controller_with status_half_open).
Proof.
  split; [exact calibration_ok_default |].
  split; [reflexivity |]; split; [reflexivity |].
  exact (proj1 (simple_goal_round_trip world_stall
                  (controller_with status_half_open)
                  calibration_ok_default eq_refl eq_refl)).
Defined.

Lemma after_sleep_commands srv position velocity force tk st :
  commands (new_events st (after_sleep srv position velocity force tk st))
  = [goto_command (cfg st) position velocity force].
Proof.
  unfold after_sleep.
  set (s2 := emit (PublishFeedback srv
                     (report position
                        (_goto_position position velocity force st)))
               (_goto_position position velocity force st)).
  destruct (deliver_adds only_telemetry (g_arrivals tk) s2 eq_refl)
    as (_ & evs & T & F).
  rewrite (new_events_app st _
             ([CmdPub (goto_command (cfg st) position velocity force);
               PublishFeedback srv
                 (report position
                    (_goto_position position velocity force st))] ++ evs)).
  - simpl; f_equal; exact (commands_none only_telemetry evs eq_refl F).
  - rewrite T; unfold s2; simpl; rewrite <- !app_assoc; reflexivity.
Qed.

Lemma after_sleep_cfg srv position velocity force tk st :
  cfg (after_sleep srv position velocity force tk st) = cfg st.
Proof.
  destruct (after_sleep_adds srv position velocity force (fun _ => true) tk st
              eq_refl eq_refl eq_refl) as [C _]; exact C.
Qed.

Lemma goal_loop_commands srv grace t0 position velocity force ticks st ex st' :
  goal_loop srv grace t0 position velocity force ticks st = Some (ex, st') ->
  exists n, (n <= length ticks)%nat /\
            commands (new_events st st')
            = repeat (goto_command (cfg st) position velocity force) n.
Proof.
  revert st; induction ticks as [| tk r IH]; intros st; simpl.
  - destruct (_reached_goal st position); [| discriminate].
    intros E; injection E as _ <-; exists 0%nat.
    rewrite new_events_refl; split; [lia | reflexivity].
  - destruct (_reached_goal st position).
    { intros E; injection E as _ <-; exists 0%nat.
      rewrite new_events_refl; split; [lia | reflexivity]. }
    pose proof (goal_body_cases srv grace t0 position velocity force tk st) as B.
    destruct (goal_body srv grace t0 position velocity force tk st)
      as [s | s | s].
    + destruct B as [_ ->]; intros E; injection E as _ <-; exists 1%nat.
      split; [lia |].
      rewrite (new_events_app st _
                 [CmdPub (goto_command (cfg st) position velocity force);
                  SetPreempted srv]); [reflexivity |].
      simpl; rewrite <- app_assoc; reflexivity.
    + destruct B as (_ & -> & _); intros E; injection E as _ <-; exists 1%nat.
      split; [lia | apply after_sleep_commands].
    + destruct B as (_ & -> & _); intros E.
      destruct (IH _ E) as (n & Hn & Hc); exists (S n); split; [lia |].
      rewrite (new_events_trans st
                 (after_sleep srv position velocity force tk st)).
      * rewrite commands_app, after_sleep_commands, Hc, after_sleep_cfg.
        reflexivity.
      * apply (adds_extends (fun _ => true)), after_sleep_adds; reflexivity.
      * apply (adds_extends (fun _ => true)).
        apply (goal_loop_adds _ _ _ _ _ _ _ _ _ _ _
                 eq_refl eq_refl eq_refl eq_refl E).
Qed.

Lemma run_goal_commands srv grace t0 position velocity force ticks st ex st' :
  run_goal srv grace t0 position velocity force ticks st = Some (ex, st') ->
  exists n, (n <= length ticks)%nat /\
            commands (new_events st st')
            = repeat (goto_command (cfg st) position velocity force) n.
Proof.
  intros E; destruct (run_goal_cases _ _ _ _ _ _ _ _ _ _ E)
    as (sl & El & [[_ ->] | [_ ->]]);
    destruct (goal_loop_commands _ _ _ _ _ _ _ _ _ _ El) as (n & Hn & Hc);
    exists n; (split; [exact Hn |]); [exact Hc |].
  rewrite (new_events_trans st sl).
  - unfold succeed; rewrite new_events_emit, commands_app, Hc; simpl.
    apply app_nil_r.
  - apply (adds_extends (fun _ => true)).
    apply (goal_loop_adds _ _ _ _ _ _ _ _ _ _ _
             eq_refl eq_refl eq_refl eq_refl El).
  - eexists; reflexivity.
Qed.



Lemma run_goal_preempt_first srv grace t0 position velocity force tk rest st :
  _reached_goal st position = false ->
  g_shutdown tk || g_preempt tk = true ->
  run_goal srv grace t0 position velocity force (tk :: rest) st
  = Some (ExitPreempted,
          emit (SetPreempted srv) (_goto_position position velocity force st)).
Proof.
  intros G A; unfold run_goal; cbn [goal_loop]; rewrite G.
  unfold goal_body; rewrite A; reflexivity.
Qed.



(** X17.  The result of the no-delay callback describes the gripper as it
    was when the goal arrived: the position and the reached flag are those
    of the status stored before the command was published, and the stalled
    flag is always false because the callback has just reset gOBJ. *)
Theorem no_delay_reports_state_before_motion (goal : CModelGoal)
  (st : Controller) :
  calibration_ok (cfg st) -> _ready st = true ->
  exists st',
    _execute_no_delay_cb goal false st = (ExitNoDelay, st') /\
    new_events st st'
    = [CmdPub (goto_command (cfg st) (target (cfg st) goal)
                 (np_clip (goal_velocity goal) (_min_speed (cfg st))
                    (_max_speed (cfg st)))
                 (np_clip (goal_force goal) (_min_force (cfg st))
                    (_max_force (cfg st))));
       SetSucceeded ServerNoDelay
         (mkReport (_get_position st) false
            (_reached_goal st (target (cfg st) goal)))].
Proof.
  intros _ R; eexists; split.
  - unfold _execute_no_delay_cb; rewrite R; reflexivity.
  - apply new_events_app; simpl; rewrite <- app_assoc; reflexivity.
Qed.

Lemma no_delay_reports_state_before_motion_witness :
  calibration_ok (cfg (controller_with status_stalled)) /\
  _ready (controller_with status_stalled) = true /\
  exists st',
    _execute_no_delay_cb goal_close false (controller_with status_stalled)
    = (ExitNoDelay, st').
Proof.
  split; [exact calibration_ok_default |]; split; [reflexivity |].
  destruct (no_delay_reports_state_before_motion goal_close
              (controller_with status_stalled) calibration_ok_default eq_refl)
    as (st' & E & _).
  exists st'; exact E.
Defined.

Lemma stalled_after_reset_false s st :
  _status st = set_gOBJ 0 s -> _stalled st = false.
Proof. intros E; unfold _stalled; rewrite E; reflexivity. Qed.

(** X18.  A polling callback leaves its loop by the stall exit only on a
    stall reported by a status message handled during that loop: a stall
    stored before the goal was taken is wiped by the reset of gOBJ and
    never ends the loop. *)
Theorem stall_exit_needs_fresh_sample (goal : CModelGoal) (gpos : Q)
  (w : World) (st st' : Controller) (now : Z) :
  calibration_ok (cfg st) ->
  (_execute_cb goal w st = Some (ExitStall now, st') ->
   In (_status st') (loop_samples (w_loop w)) /\
   (gOBJ (_status st') = 1 \/ gOBJ (_status st') = 2)%Z) /\
  (_simple_gripper_action_cb gpos w st = Some (ExitStall now, st') ->
   In (_status st') (loop_samples (w_loop w)) /\
   (gOBJ (_status st') = 1 \/ gOBJ (_status st') = 2)%Z).
Proof.
  intros _.
  assert (K : forall s, _stalled s = true ->
                        (gOBJ (_status s) = 1 \/ gOBJ (_status s) = 2)%Z).
  { intros s S; unfold _stalled in S; apply orb_prop in S.
    destruct S as [S | S]; apply Z.eqb_eq in S; auto. }
  split.
  - intros E; destruct (execute_cb_cases _ _ _ _ _ E)
      as (v & st0 & _ & [(_ & X & _) | [(_ & _ & X & _) | (_ & _ & Eg)]]);
      try discriminate.
    destruct (run_goal_outcome _ _ _ _ _ _ _ _ _ _ Eg)
      as [(X & _) | [(n & _ & _ & S & _) | (X & _)]]; try discriminate.
    split; [| exact (K _ S)].
    destruct (run_goal_status _ _ _ _ _ _ _ _ _ _ Eg) as [H | H];
      [| exact H].
    rewrite (stalled_after_reset_false _ _ H) in S; discriminate.
  - intros E; destruct (simple_cb_cases _ _ _ _ _ E)
      as [(_ & X & _) | [(_ & _ & X & _) | (_ & _ & Eg)]]; try discriminate.
    destruct (run_goal_outcome _ _ _ _ _ _ _ _ _ _ Eg)
      as [(X & _) | [(n & _ & _ & S & _) | (X & _)]]; try discriminate.
    split; [| exact (K _ S)].
    destruct (run_goal_status _ _ _ _ _ _ _ _ _ _ Eg) as [H | H];
      [| exact H].
    rewrite (stalled_after_reset_false _ _ H) in S; discriminate.
Qed.

Lemma stall_exit_needs_fresh_sample_witness :
  calibration_ok (cfg (controller_with status_half_open)) /\
  _execute_cb goal_close world_stall (controller_with status_half_open)
  = Some (ExitStall 700000000,
          final_state
            (_execute_cb goal_close world_stall
               (controller_with status_half_open))
            (controller_with status_half_open)) /\
  In (_status
        (final_state
           (_execute_cb goal_close world_stall
              (controller_with status_half_open))
           (controller_with status_half_open)))
     (loop_samples (w_loop world_stall)).
Proof.
  assert (E : _execute_cb goal_close world_stall
                (controller_with status_half_open)
              = Some (ExitStall 700000000,
                      final_state
                        (_execute_cb goal_close world_stall
                           (controller_with status_half_open))
                        (controller_with status_half_open)))
    by (vm_compute; reflexivity).
  split; [exact calibration_ok_default |]; split; [exact E |].
  exact (proj1 (proj1
           (stall_exit_needs_fresh_sample goal_close (8 # 10) world_stall
              (controller_with status_half_open) _ 700000000
              calibration_ok_default) E)).
Defined.
